(** * Thumbnail service ([backend/venv/server.py])

    A shallow embedding of the Flask handler [thumbnail] and of its two
    helpers [generate_thumbnail] and [get_image_metadata], with the
    properties of the service proved on it.

    The handler is glue around code that the repository only imports:
    the network ([urlopen]), the imaging library (PIL), werkzeug's
    [secure_filename], [os.path], [base64] and the local file system.
    Pure routines with a fixed, documented meaning ([int], [os.path],
    [secure_filename], [base64], the size computation of
    [Image.thumbnail]) are written out; everything whose result depends
    on the outside world (fetching, decoding, encoding, resampling, tag
    tables, text decoding) is a field of the class [Platform], and every
    theorem holds for all platforms. *)

From Stdlib Require Import ZArith NArith QArith Qround Qabs Lqa Lia.
From Stdlib Require Import String Ascii List Bool.
From Stdlib Require Import Strings.Byte DecimalString.
From stdpp Require Import base option gmap strings.
Import ListNotations.

Local Open Scope string_scope.
Local Open Scope Z_scope.

(** ** Python values and exceptions *)

(** A [bytes] object. *)
Abbreviation bytes := (list byte).

(** A raised exception: its class and the text [str(e)] gives. *)
Record exn := Exn { exn_class : string; exn_str : string }.

Inductive result (A : Type) : Type :=
| Ok (a : A)
| Raise (e : exn).
Arguments Ok {A} a.
Arguments Raise {A} e.

Definition is_ok {A} (r : result A) : bool :=
  match r with Ok _ => true | Raise _ => false end.

(** ** Characters and strings *)

Module PyStr.

Definition ord (c : ascii) : N := N_of_ascii c.

Definition is_digit (c : ascii) : bool :=
  ((48 <=? ord c) && (ord c <=? 57))%N.

Definition is_alpha (c : ascii) : bool :=
  (((65 <=? ord c) && (ord c <=? 90)) || ((97 <=? ord c) && (ord c <=? 122)))%N.

(** [str.isspace] on the ASCII range: TAB, LF, VT, FF, CR, the four
    separators FS, GS, RS, US, and the space. *)
Definition is_space (c : ascii) : bool :=
  (((9 <=? ord c) && (ord c <=? 13)) || ((28 <=? ord c) && (ord c <=? 32)))%N.

Fixpoint lstrip (p : ascii -> bool) (cs : list ascii) : list ascii :=
  match cs with
  | [] => []
  | c :: rest => if p c then lstrip p rest else cs
  end.

Definition rstrip (p : ascii -> bool) (cs : list ascii) : list ascii :=
  rev (lstrip p (rev cs)).

(** [s.strip(chars)] *)
Definition strip (p : ascii -> bool) (cs : list ascii) : list ascii :=
  rstrip p (lstrip p cs).

(** [s.split()]: the maximal runs of non-blank characters; [cur] is the
    run being read, in reverse. *)
Fixpoint split_ws (cur cs : list ascii) : list (list ascii) :=
  match cs with
  | [] => match cur with [] => [] | _ => [rev cur] end
  | c :: rest =>
      if is_space c
      then match cur with
           | [] => split_ws [] rest
           | _ => rev cur :: split_ws [] rest
           end
      else split_ws (c :: cur) rest
  end.

(** [sep.join(words)] *)
Fixpoint join (sep : list ascii) (words : list (list ascii)) : list ascii :=
  match words with
  | [] => []
  | [w] => w
  | w :: ws => w ++ sep ++ join sep ws
  end.

(** [s.replace(a, b)] for single characters. *)
Definition replace_char (a b : ascii) (cs : list ascii) : list ascii :=
  map (fun c => if Ascii.eqb c a then b else c) cs.

(** [s.startswith(p)] *)
Definition startswith (s p : string) : bool := String.prefix p s.

(** [s.endswith(c)] for one character. *)
Definition endswith_char (s : string) (c : ascii) : bool :=
  match rev (list_ascii_of_string s) with
  | d :: _ => Ascii.eqb d c
  | [] => false
  end.

Definition is_ascii (s : string) : bool :=
  forallb (fun c => (ord c <? 128)%N) (list_ascii_of_string s).

(** The digits of an integer literal: [digit (["_"] digit)*]; [prev]
    tells whether the character before was a digit. *)
Fixpoint digits (acc : Z) (prev : bool) (cs : list ascii) : option Z :=
  match cs with
  | [] => if prev then Some acc else None
  | c :: rest =>
      if is_digit c
      then digits (acc * 10 + (Z.of_N (ord c) - 48)) true rest
      else if Ascii.eqb c "_" && prev
           then match rest with
                | [] => None
                | _ => digits acc false rest
                end
           else None
  end.

(** The blanks [int] skips around the number in ASCII text: TAB, LF, VT,
    FF, CR and the space. The separators FS, GS, RS, US, which
    [str.split] takes for blanks, are no blanks here. *)
Definition is_int_space (c : ascii) : bool :=
  (((9 <=? ord c) && (ord c <=? 13)) || (ord c =? 32))%N.

Definition count_digits (cs : list ascii) : N :=
  N.of_nat (length (List.filter is_digit cs)).

(** The number after the sign. [max_str_digits] is
    [sys.get_int_max_str_digits()]: when it is not 0, a number written
    with more digits (underscores apart, leading zeros counted) is
    refused. Python looks at the limit only above 640 digits, the least
    limit that can be set. *)
Definition unsigned (max_str_digits : N) (cs : list ascii) : option Z :=
  match digits 0 false cs with
  | Some n =>
      if ((640 <? count_digits cs) && (0 <? max_str_digits)
          && (max_str_digits <? count_digits cs))%N
      then None
      else Some n
  | None => None
  end.

(** [int(s)] on ASCII text, base 10: blanks around, an optional sign,
    then the digits. [None] stands for [ValueError]. *)
Definition int_of_str (max_str_digits : N) (s : string) : option Z :=
  match strip is_int_space (list_ascii_of_string s) with
  | [] => None
  | c :: rest =>
      if Ascii.eqb c "-" then option_map Z.opp (unsigned max_str_digits rest)
      else if Ascii.eqb c "+" then unsigned max_str_digits rest
      else unsigned max_str_digits (c :: rest)
  end.

End PyStr.

(** ** [os.path] (POSIX) *)

Module OsPath.

Fixpoint basename_from (cur cs : list ascii) : list ascii :=
  match cs with
  | [] => rev cur
  | c :: rest =>
      if Ascii.eqb c "/" then basename_from [] rest
      else basename_from (c :: cur) rest
  end.

(** [os.path.basename(p)]: what follows the last slash. *)
Definition basename (p : string) : string :=
  string_of_list_ascii (basename_from [] (list_ascii_of_string p)).

(** [os.path.join(a, b)] *)
Definition join (a b : string) : string :=
  if PyStr.startswith b "/" then b
  else if String.eqb a "" || PyStr.endswith_char a "/" then a ++ b
  else a ++ "/" ++ b.

End OsPath.

(** ** [base64] (RFC 4648, standard alphabet, padded) *)

Module Base64.

Local Open Scope N_scope.

Definition alphabet : string :=
  "ABCDEFGHIJKLMNOPQRSTUVWXYZabcdefghijklmnopqrstuvwxyz0123456789+/".

Definition pad : ascii := "="%char.

(** The character of a 6-bit value. *)
Definition char_of (n : N) : ascii :=
  match String.get (N.to_nat n) alphabet with
  | Some c => c
  | None => pad
  end.

(** The 6-bit value of a character of the alphabet. *)
Definition index_of (c : ascii) : option N :=
  let o := PyStr.ord c in
  if (65 <=? o) && (o <=? 90) then Some (o - 65)
  else if (97 <=? o) && (o <=? 122) then Some (o - 97 + 26)
  else if (48 <=? o) && (o <=? 57) then Some (o - 48 + 52)
  else if o =? 43 then Some 62
  else if o =? 47 then Some 63
  else None.

(** Three bytes seen as one 24-bit number, and its four 6-bit digits. *)
Definition pack3 (a b c : N) : N := a * 65536 + b * 256 + c.

Definition sextet (n : N) (k : N) : N := (n / 64 ^ k) mod 64.

Fixpoint encode (bs : bytes) : list ascii :=
  match bs with
  | [] => []
  | [a] =>
      let n := pack3 (Byte.to_N a) 0 0 in
      [char_of (sextet n 3); char_of (sextet n 2); pad; pad]
  | [a; b] =>
      let n := pack3 (Byte.to_N a) (Byte.to_N b) 0 in
      [char_of (sextet n 3); char_of (sextet n 2); char_of (sextet n 1); pad]
  | a :: b :: c :: rest =>
      let n := pack3 (Byte.to_N a) (Byte.to_N b) (Byte.to_N c) in
      char_of (sextet n 3) :: char_of (sextet n 2)
        :: char_of (sextet n 1) :: char_of (sextet n 0) :: encode rest
  end.

(** [base64.b64encode(b).decode('utf-8')]: the alphabet is ASCII, so
    the text has the very characters of the encoding. *)
Definition b64encode (bs : bytes) : string := string_of_list_ascii (encode bs).

Definition unpack4 (i1 i2 i3 i4 : N) : N := ((i1 * 64 + i2) * 64 + i3) * 64 + i4.

Definition octet (n : N) (k : N) : option byte := Byte.of_N ((n / 256 ^ k) mod 256).

(** The bytes of one group of four characters; [keep] is how many of
    the three bytes are data (the others come from padding). *)
Definition decode_group (c1 c2 c3 c4 : ascii) (keep : nat) : option bytes :=
  match index_of c1, index_of c2, index_of c3, index_of c4 with
  | Some i1, Some i2, Some i3, Some i4 =>
      let n := unpack4 i1 i2 i3 i4 in
      match octet n 2, octet n 1, octet n 0 with
      | Some a, Some b, Some c => Some (firstn keep [a; b; c])
      | _, _, _ => None
      end
  | _, _, _, _ => None
  end.

Definition decode_last (c1 c2 c3 c4 : ascii) : option bytes :=
  if Ascii.eqb c4 pad
  then if Ascii.eqb c3 pad
       then decode_group c1 c2 "A" "A" 1
       else decode_group c1 c2 c3 "A" 2
  else decode_group c1 c2 c3 c4 3.

Fixpoint decode (cs : list ascii) : option bytes :=
  match cs with
  | [] => Some []
  | c1 :: c2 :: c3 :: c4 :: rest =>
      match rest with
      | [] => decode_last c1 c2 c3 c4
      | _ =>
          match decode_group c1 c2 c3 c4 3, decode rest with
          | Some g, Some r => Some (g ++ r)%list
          | _, _ => None
          end
      end
  | _ => None
  end.

(** [base64.b64decode(s)] on well-formed input. *)
Definition b64decode (s : string) : option bytes :=
  decode (list_ascii_of_string s).

End Base64.


(** ** Images, tag tables and the platform *)

(** A value of an embedded tag table: raw bytes, text, an integer, or any
    other Python object, kept by its printed form. *)
Inductive exif_value :=
| VBytes (b : bytes)
| VStr (s : string)
| VInt (n : Z)
| VOther (printed : string).

(** A key of the metadata mapping: [TAGS.get(tag_id, tag_id)] is the name
    of the tag when it has one and the numeric identifier otherwise. *)
Inductive tag_key :=
| TagName (name : string)
| TagId (tag_id : Z).

(** A [PIL.Image]: its size, its mode, its picture data, and what
    [img._getexif()] does on it: raise, return [None], or return the tag
    table in its order. *)
Record Image := {
  im_width : Z;
  im_height : Z;
  im_mode : string;
  im_data : bytes;
  im_getexif : result (option (list (Z * exif_value)))
}.

Definition im_size (img : Image) : Z * Z := (im_width img, im_height img).

(** What [img.save(path)] comes to. PIL finds the format and prepares the
    image first, then opens the file for writing (which empties a file
    that is there), then encodes into it. *)
Inductive save_outcome :=
| Saved (data : bytes)                (** the file is written with [data] *)
| Refused (e : exn)                   (** raised before the file is opened *)
| Broken (e : exn) (partial : bytes). (** raised while encoding, with
                                          [partial] in the file so far *)

(** What the handler gets from the libraries and the network. A function
    that can raise returns a [result]. *)
Class Platform := {
  (** [urlopen(url)], read to the end *)
  urlopen : string -> result bytes;
  (** [Image.open(stream)] *)
  Image_open : bytes -> result Image;
  (** [img.save(path)], in the format the extension of [path] names *)
  Image_save : Image -> string -> save_outcome;
  (** whether a save that breaks removes the file when the save itself
      created it (recent PIL does, older PIL leaves it) *)
  save_removes_created : bool;
  (** [img.save(buffer, 'JPEG')] *)
  Image_save_jpeg : Image -> result bytes;
  (** the picture data of [img.resize(size)] *)
  Image_resize : Image -> Z * Z -> result bytes;
  (** [PIL.ExifTags.TAGS] *)
  TAGS : Z -> option string;
  (** [b.decode()]; [None] is [UnicodeDecodeError] *)
  bytes_decode : bytes -> option string;
  (** [str(b)] on a bytes object *)
  bytes_str : bytes -> string;
  (** [unicodedata.normalize('NFKD', s).encode('ascii', 'ignore').decode('ascii')] *)
  nfkd_ascii : string -> string;
  (** [int(s)] on text with characters outside ASCII, where Python also
      reads the decimal digits and the blanks of other scripts; [None] is
      [ValueError] *)
  int_unicode : string -> option Z;
  (** [sys.get_int_max_str_digits()]: 4300 by default where Python has
      the limit, 0 where it has none or it is switched off *)
  int_max_str_digits : N;
  (** [str(e)] of the [ValueError] that [int(s)] raises *)
  int_error_text : string -> string;
  (** the exception [jsonify] raises on a metadata mapping it cannot
      serialize, if any: a value of a type JSON does not have, keys that
      cannot be sorted *)
  json_error : list (tag_key * exif_value) -> option exn
}.

(** ** [PIL.Image.thumbnail] *)

Module Pil.

Definition ZeroDivisionError : exn :=
  Exn "ZeroDivisionError" "division by zero".

(** Modelled from the spec: the rounding helper of PIL's
    [Image.thumbnail], which the repository does not contain:
    [max(min(math.floor(number), math.ceil(number), key=key), 1)], where
    [min] keeps its first argument when the keys are equal. This is the
    rounding the spec allows the aspect ratio. *)
Definition round_aspect (number : Q) (key : Z -> Q) : Z :=
  let lo := Qfloor number in
  let hi := Qceiling number in
  Z.max (if Qle_bool (key lo) (key hi) then lo else hi) 1.

(** Modelled from the spec: the size computation of PIL's
    [Image.thumbnail] ([preserve_aspect_ratio] in PIL's Image.py), which
    [generate_thumbnail] calls and the repository does not contain. The
    spec says of it: shrink the image so that neither dimension exceeds
    the requested width and height while preserving the aspect ratio.
    The routine below is the one PIL documents and ships: nothing to do
    when the image already fits, otherwise one requested dimension is
    kept and the other is the aspect-scaled value, rounded down or up to
    whichever is nearer the original ratio, and at least 1. Python
    divides in floating point; here the quotients are exact rationals. *)
Definition preserve_aspect_ratio (img : Image) (size : Z * Z)
  : result (option (Z * Z)) :=
  let '(x, y) := size in
  if (im_width img <=? x) && (im_height img <=? y) then Ok None
  else if im_height img =? 0 then Raise ZeroDivisionError
  else
    let aspect := (inject_Z (im_width img) / inject_Z (im_height img))%Q in
    if y =? 0 then Raise ZeroDivisionError
    else if Qle_bool aspect (inject_Z x / inject_Z y) then
      let x' := round_aspect (inject_Z y * aspect)
                  (fun n => Qabs (aspect - inject_Z n / inject_Z y)) in
      Ok (Some (x', y))
    else if im_width img =? 0 then Raise ZeroDivisionError
    else
      let y' := round_aspect (inject_Z x / aspect)
                  (fun n => if n =? 0 then 0
                            else Qabs (aspect - inject_Z x / inject_Z n))%Q in
      Ok (Some (x, y')).

(** Modelled from the spec: the size [img] has after PIL's
    [img.thumbnail(size)], by the computation above. *)
Definition thumbnail_size (img : Image) (size : Z * Z) : result (Z * Z) :=
  match preserve_aspect_ratio img size with
  | Ok None => Ok (im_size img)
  | Ok (Some final_size) => Ok final_size
  | Raise e => Raise e
  end.

Definition size_eqb (a b : Z * Z) : bool :=
  (fst a =? fst b) && (snd a =? snd b).

Section Thumbnail.
Context `{Platform}.

(** Modelled from the spec: PIL's [img.thumbnail(size)], which shrinks
    the image in place: an image that already has the final size is left
    alone, otherwise it is resampled to it. *)
Definition Image_thumbnail (img : Image) (size : Z * Z) : result Image :=
  match preserve_aspect_ratio img size with
  | Raise e => Raise e
  | Ok None => Ok img
  | Ok (Some final_size) =>
      if size_eqb (im_size img) final_size then Ok img
      else match Image_resize img final_size with
           | Raise e => Raise e
           | Ok data =>
               Ok {| im_width := fst final_size;
                     im_height := snd final_size;
                     im_mode := im_mode img;
                     im_data := data;
                     im_getexif := im_getexif img |}
           end
  end.
End Thumbnail.

End Pil.

(** ** [werkzeug.utils.secure_filename] (POSIX) *)

Module Werkzeug.

(** The characters the pattern [[^A-Za-z0-9_.-]] lets through. *)
Definition is_safe (c : ascii) : bool :=
  PyStr.is_alpha c || PyStr.is_digit c
  || Ascii.eqb c "_" || Ascii.eqb c "." || Ascii.eqb c "-".

Definition is_dot_or_underscore (c : ascii) : bool :=
  Ascii.eqb c "." || Ascii.eqb c "_".

(** What [secure_filename] does once the name is plain ASCII: slashes
    become blanks, the words are joined with underscores, every other
    character is dropped, and dots and underscores are stripped from
    both ends. *)
Definition secure_ascii (cs : list ascii) : list ascii :=
  let cs := PyStr.replace_char "/" " " cs in
  let cs := PyStr.join ["_"%char] (PyStr.split_ws [] cs) in
  let cs := List.filter is_safe cs in
  PyStr.strip is_dot_or_underscore cs.

Section SecureFilename.
Context `{Platform}.

Definition secure_filename (filename : string) : string :=
  string_of_list_ascii
    (secure_ascii (list_ascii_of_string (nfkd_ascii filename))).
End SecureFilename.

End Werkzeug.

(** ** The world of a request: the disk and what was done to the outside *)

Inductive event :=
| Urlopen (url : string)          (** [urlopen(url)] *)
| ImageOpen (path : string)       (** [Image.open(path)] on a local path *)
| ImageSave (path : string)       (** [img.save(path)] *)
| UploadSave (path : string)      (** [image_file.save(path)] *)
| OsRemove (path : string)        (** [os.remove(path)] *)
| Print (line : string).          (** [print(line)] *)

(** The files of the working directory by path, and the calls made so
    far, oldest first. *)
Record world := World {
  disk : gmap string bytes;
  trace : list event
}.

(** A computation that reads and changes the world and may raise. What
    was done before an exception stays done. *)
Definition M (A : Type) : Type := world -> result A * world.

Definition ret {A} (a : A) : M A := fun w => (Ok a, w).

Definition raise {A} (e : exn) : M A := fun w => (Raise e, w).

Definition bind {A B} (m : M A) (k : A -> M B) : M B :=
  fun w =>
    match m w with
    | (Ok a, w') => k a w'
    | (Raise e, w') => (Raise e, w')
    end.

Notation "'let*' x ':=' m 'in' k" := (bind m (fun x => k))
  (at level 10, x name, m at level 100, k at level 200).

Notation "m1 '>>' m2" := (bind m1 (fun _ => m2))
  (at level 90, right associativity).

(** [try: m except Exception as e: handler(e)] *)
Definition try_except {A} (m : M A) (handler : exn -> M A) : M A :=
  fun w =>
    match m w with
    | (Ok a, w') => (Ok a, w')
    | (Raise e, w') => handler e w'
    end.

Definition lift {A} (r : result A) : M A := fun w => (r, w).

Definition emit (ev : event) : M unit :=
  fun w => (Ok tt, World (disk w) (trace w ++ [ev])).

Definition print (line : string) : M unit := emit (Print line).

(** ** The file system *)

Definition UPLOAD_FOLDER : string := "uploads".

(** The one directory the service has: [os.makedirs(UPLOAD_FOLDER,
    exist_ok=True)] runs when the module is loaded. *)
Definition is_dir (path : string) : bool :=
  String.eqb path UPLOAD_FOLDER || String.eqb path (UPLOAD_FOLDER ++ "/").

Definition IsADirectoryError (path : string) : exn :=
  Exn "IsADirectoryError" ("[Errno 21] Is a directory: '" ++ path ++ "'").

Definition FileNotFoundError (path : string) : exn :=
  Exn "FileNotFoundError" ("[Errno 2] No such file or directory: '" ++ path ++ "'").

(** [open(path, 'rb').read()] *)
Definition read_file (path : string) : M bytes :=
  fun w =>
    if is_dir path then (Raise (IsADirectoryError path), w)
    else match disk w !! path with
         | Some data => (Ok data, w)
         | None => (Raise (FileNotFoundError path), w)
         end.

(** [open(path, 'wb').write(data)] *)
Definition write_file (path : string) (data : bytes) : M unit :=
  fun w =>
    if is_dir path then (Raise (IsADirectoryError path), w)
    else (Ok tt, World (<[path := data]> (disk w)) (trace w)).

(** [os.path.exists(path)] *)
Definition path_exists (path : string) : M bool :=
  fun w =>
    (Ok (is_dir path || match disk w !! path with Some _ => true | None => false end), w).

(** The file at [path] taken away, if there is one. *)
Definition unlink (path : string) : M unit :=
  fun w => (Ok tt, World (delete path (disk w)) (trace w)).

(** [os.remove(path)] *)
Definition os_remove (path : string) : M unit :=
  let* _ := emit (OsRemove path) in
  fun w =>
    if is_dir path then (Raise (IsADirectoryError path), w)
    else match disk w !! path with
         | Some _ => (Ok tt, World (delete path (disk w)) (trace w))
         | None => (Raise (FileNotFoundError path), w)
         end.

(** ** The request and the response *)

(** An uploaded file ([werkzeug.datastructures.FileStorage]). *)
Record FileStorage := {
  filename : string;
  stream : bytes
}.

(** [request.form] and [request.files], in order; a lookup takes the
    first entry of the name. *)
Record request := {
  form : list (string * string);
  files : list (string * FileStorage)
}.

Fixpoint assoc {V} (name : string) (l : list (string * V)) : option V :=
  match l with
  | [] => None
  | (k, v) :: rest => if String.eqb k name then Some v else assoc name rest
  end.

(** The metadata mapping, a Python dict: keys in order of first
    insertion, a later value replacing an earlier one. *)
Definition dict := list (tag_key * exif_value).

Definition tag_key_eqb (a b : tag_key) : bool :=
  match a, b with
  | TagName s, TagName t => String.eqb s t
  | TagId m, TagId n => m =? n
  | _, _ => false
  end.

Fixpoint dict_set (k : tag_key) (v : exif_value) (d : dict) : dict :=
  match d with
  | [] => [(k, v)]
  | (k', v') :: rest =>
      if tag_key_eqb k' k then (k', v) :: rest else (k', v') :: dict_set k v rest
  end.

(** A mapping JSON has everything for: text and integers as values,
    under keys that are all names or all numbers (so they can be
    sorted). The integers are those of at most 64 bits, which is all a
    tag table holds; writing out a very long integer can hit the digit
    limit of Python's conversion to text. *)
Definition is_plain_value (value : exif_value) : bool :=
  match value with
  | VStr _ => true
  | VInt n => Z.abs n <? 2 ^ 64
  | VBytes _ | VOther _ => false
  end.

Definition is_name (k : tag_key) : bool :=
  match k with TagName _ => true | TagId _ => false end.

Definition is_plain (d : dict) : bool :=
  forallb (fun kv => is_plain_value (snd kv)) d
  && (forallb (fun kv => is_name (fst kv)) d
      || forallb (fun kv => negb (is_name (fst kv))) d).

(** The JSON object of a response. *)
Inductive body :=
| ErrorBody (error : string)
| ThumbnailBody (thumbnailUrl : string) (metadata : dict).

Record response := Response {
  status : Z;
  json : body
}.

(** ** [server.py] *)

Module Server.

Section Handler.
Context `{Platform}.

(** [urlopen(url)] as a call on the outside. *)
Definition fetch (url : string) : M bytes :=
  let* _ := emit (Urlopen url) in
  lift (urlopen url).

(** The head of both helpers:
<<
    if image_path.startswith('http://') or image_path.startswith('https://'):
        image_stream = urlopen(image_path)
        img = Image.open(image_stream)
    else:
        img = Image.open(image_path)
>> *)
Definition open_image (image_path : string) : M Image :=
  if PyStr.startswith image_path "http://"
     || PyStr.startswith image_path "https://"
  then
    let* image_stream := fetch image_path in
    lift (Image_open image_stream)
  else
    let* _ := emit (ImageOpen image_path) in
    let* data := read_file image_path in
    lift (Image_open data).

(** One entry of the tag table as it enters the mapping. *)
Definition tag_of (tag_id : Z) : tag_key :=
  match TAGS tag_id with
  | Some name => TagName name
  | None => TagId tag_id
  end.

(** Bytes become text; bytes that do not decode become their printed
    form ([except UnicodeDecodeError: value = str(value)]). *)
Definition decode_value (value : exif_value) : exif_value :=
  match value with
  | VBytes b =>
      match bytes_decode b with
      | Some s => VStr s
      | None => VStr (bytes_str b)
      end
  | _ => value
  end.

(** The [for tag_id, value in exif_data.items()] loop. *)
Definition collect_metadata (exif_data : list (Z * exif_value)) : dict :=
  fold_left
    (fun metadata '(tag_id, value) =>
       dict_set (tag_of tag_id) (decode_value value) metadata)
    exif_data [].

Definition get_image_metadata (image_path : string) : M dict :=
  try_except
    (let* img := open_image image_path in
     let* exif_data := lift (im_getexif img) in
     match exif_data with
     | None => ret []
     | Some exif_data => ret (collect_metadata exif_data)
     end)
    (fun e =>
       let* _ := print ("Error extracting metadata: " ++ exn_str e) in
       ret []).

Definition generate_thumbnail (image_path : string) (width height : Z)
  : M (option bytes) :=
  try_except
    (let* img := open_image image_path in
     let* img := lift (Pil.Image_thumbnail img (width, height)) in
     let* thumbnail_io := lift (Image_save_jpeg img) in
     ret (Some thumbnail_io))
    (fun e =>
       let* _ := print ("Error generating thumbnail: " ++ exn_str e) in
       ret None).

(** [int(s)] on a string. *)
Definition py_int (s : string) : option Z :=
  if PyStr.is_ascii s then PyStr.int_of_str int_max_str_digits s else int_unicode s.

(** [int(request.form.get(name, 100))] *)
Definition int_field (name : string) (req : request) : result Z :=
  match assoc name (form req) with
  | None => Ok 100
  | Some s =>
      match py_int s with
      | Some n => Ok n
      | None => Raise (Exn "ValueError" (int_error_text s))
      end
  end.

(** [img.save(path)]. A save that breaks while encoding has already
    emptied the file; PIL then removes the file if the save created it,
    and lets the exception through. *)
Definition image_save (img : Image) (path : string) : M unit :=
  let* _ := emit (ImageSave path) in
  match Image_save img path with
  | Saved data => write_file path data
  | Refused e => raise e
  | Broken e partial =>
      let* existed := path_exists path in
      let* _ := write_file path partial in
      let* _ := if negb existed && save_removes_created then unlink path else ret tt in
      raise e
  end.

(** [image_file.save(path)] *)
Definition upload_save (image_file : FileStorage) (path : string) : M unit :=
  let* _ := emit (UploadSave path) in
  write_file path (stream image_file).

(** The body of the [try] of the URL branch; its value is
    [temp_filepath]. *)
Definition download (image_url : string) : M string :=
  let* image_stream := fetch image_url in
  let* img := lift (Image_open image_stream) in
  let temp_filename := Werkzeug.secure_filename (OsPath.basename image_url) in
  let temp_filepath := OsPath.join UPLOAD_FOLDER temp_filename in
  let* _ := image_save img temp_filepath in
  ret temp_filepath.

(** Where the image of the request is: [image_path], and
    [temp_filepath] when the URL branch bound it. *)
Record source := {
  image_path : string;
  temp_filepath : option string
}.

(** The [if 'imageUrl' in request.form: ... elif 'image' in
    request.files: ... else: ...] statement: a response when a branch
    returns, the source otherwise. *)
Definition resolve_source (req : request) : M (response + source) :=
  match assoc "imageUrl" (form req) with
  | Some image_url =>
      try_except
        (let* temp_filepath := download image_url in
         ret (inr {| image_path := temp_filepath;
                     temp_filepath := Some temp_filepath |}))
        (fun e =>
           ret (inl (Response 400
                       (ErrorBody ("Error downloading image from URL: "
                                     ++ exn_str e)))))
  | None =>
      match assoc "image" (files req) with
      | Some image_file =>
          if String.eqb (filename image_file) ""
          then ret (inl (Response 400 (ErrorBody "No selected file")))
          else
            let filename := Werkzeug.secure_filename (filename image_file) in
            let image_path := OsPath.join UPLOAD_FOLDER filename in
            let* _ := upload_save image_file image_path in
            ret (inr {| image_path := image_path; temp_filepath := None |})
      | None =>
          ret (inl (Response 400 (ErrorBody "Missing imageUrl or image file")))
      end
  end.

(** [if 'temp_filepath' in locals(): try: os.remove(temp_filepath)
    except Exception as e: print(...)] *)
Definition cleanup (src : source) : M unit :=
  match temp_filepath src with
  | Some temp_filepath =>
      try_except (os_remove temp_filepath)
        (fun e => print ("Error deleting temporary file: " ++ exn_str e))
  | None => ret tt
  end.

Definition data_url_prefix : string := "data:image/jpeg;base64,".

(** [jsonify({'thumbnailUrl': thumbnail_url, 'metadata': metadata})]:
    a plain mapping is always serialized; on any other mapping
    [jsonify] may raise (a value such as a rational, a number key
    beside a name key). *)
Definition jsonify_thumbnail (thumbnail_url : string) (metadata : dict)
  : result response :=
  if is_plain metadata
  then Ok (Response 200 (ThumbnailBody thumbnail_url metadata))
  else match json_error metadata with
       | None => Ok (Response 200 (ThumbnailBody thumbnail_url metadata))
       | Some e => Raise e
       end.

(** The handler of [/thumbnail]. [Raise] is an exception that leaves
    the handler. The error bodies hold one text and are always
    serialized. *)
Definition thumbnail (req : request) : M response :=
  let* width := lift (int_field "width" req) in
  let* height := lift (int_field "height" req) in
  let* resolved := resolve_source req in
  match resolved with
  | inl early => ret early
  | inr src =>
      let* thumbnail_io := generate_thumbnail (image_path src) width height in
      match thumbnail_io with
      | None => ret (Response 500 (ErrorBody "Failed to generate thumbnail"))
      | Some thumbnail_io =>
          let* metadata := get_image_metadata (image_path src) in
          let thumbnail_base64 := Base64.b64encode thumbnail_io in
          let thumbnail_url := data_url_prefix ++ thumbnail_base64 in
          let* _ := cleanup src in
          lift (jsonify_thumbnail thumbnail_url metadata)
      end
  end.

End Handler.

End Server.

(** [s.removeprefix(p)] when [s] starts with [p], as a reader of the
    response takes the data-URI header off. *)
Fixpoint strip_prefix (p s : string) : option string :=
  match p, s with
  | EmptyString, _ => Some s
  | String a p', String b s' => if Ascii.eqb a b then strip_prefix p' s' else None
  | String _ _, EmptyString => None
  end.

(** The request with one more form field in front. *)
Definition with_field (name value : string) (req : request) : request :=
  {| form := (name, value) :: form req; files := files req |}.

(** The request without its uploaded files. *)
Definition without_files (req : request) : request :=
  {| form := form req; files := [] |}.

(** ** A small platform to run the handler on

    Three pictures are on the network: a 400x300 RGB photograph whose
    tag table has a maker name and a maker note that is not valid text, a
    64x64 RGBA logo without tag table, and a 200x100 RGB scan whose tag
    table has a resolution, a rational number. A file holds the picture
    data as it is; JPEG has no alpha channel, so an RGBA image is refused
    by the JPEG encoder; JSON has no rationals. *)

Module Demo.

Definition photo_data : bytes := ["P"%byte; "H"%byte; "O"%byte; "T"%byte; "O"%byte].
Definition logo_data : bytes := ["L"%byte; "O"%byte; "G"%byte; "O"%byte].
Definition scan_data : bytes := ["S"%byte; "C"%byte; "A"%byte; "N"%byte].

Definition photo : Image :=
  {| im_width := 400; im_height := 300; im_mode := "RGB";
     im_data := photo_data;
     im_getexif :=
       Ok (Some [(271, VBytes ["T"%byte; "e"%byte; "s"%byte; "t"%byte;
                               "C"%byte; "a"%byte; "m"%byte]);
                 (37500, VBytes [xff])]) |}.

Definition scan : Image :=
  {| im_width := 200; im_height := 100; im_mode := "RGB";
     im_data := scan_data;
     im_getexif := Ok (Some [(282, VOther "72.0")]) |}.

Definition logo : Image :=
  {| im_width := 64; im_height := 64; im_mode := "RGBA";
     im_data := logo_data;
     im_getexif := Ok None |}.

Fixpoint bytes_eqb (a b : bytes) : bool :=
  match a, b with
  | [], [] => true
  | x :: a', y :: b' => Byte.eqb x y && bytes_eqb a' b'
  | _, _ => false
  end.

Definition demo_urlopen (url : string) : result bytes :=
  if String.eqb url "http://example.com/pics/photo.jpg" then Ok photo_data
  else if String.eqb url "http://example.com/logo.png" then Ok logo_data
  else if String.eqb url "http://example.com/scan.jpg" then Ok scan_data
  else if String.eqb url "http://example.com/icons/photo.jpg" then Ok logo_data
  else Raise (Exn "URLError" "<urlopen error [Errno -2] Name or service not known>").

Definition demo_open (data : bytes) : result Image :=
  if bytes_eqb data photo_data then Ok photo
  else if bytes_eqb data logo_data then Ok logo
  else if bytes_eqb data scan_data then Ok scan
  else Raise (Exn "UnidentifiedImageError" "cannot identify image file").

Definition has_suffix (s suffix : string) : bool :=
  String.prefix (string_of_list_ascii (rev (list_ascii_of_string suffix)))
                (string_of_list_ascii (rev (list_ascii_of_string s))).

Definition demo_save_jpeg (img : Image) : result bytes :=
  if String.eqb (im_mode img) "RGBA"
  then Raise (Exn "OSError" "cannot write mode RGBA as JPEG")
  else Ok (xff :: xd8 :: im_data img).

Definition demo_save (img : Image) (path : string) : save_outcome :=
  if has_suffix path ".png" then Saved (im_data img)
  else if has_suffix path ".jpg" then
    match demo_save_jpeg img with
    | Ok _ => Saved (im_data img)
    | Raise e => Broken e []
    end
  else Refused (Exn "ValueError" ("unknown file extension: " ++ path)).

(** [json.dumps] with sorted keys: a value that is neither text nor an
    integer has no JSON form, and names do not compare with numbers. *)
Definition demo_json_error (d : list (tag_key * exif_value)) : option exn :=
  if negb (forallb (fun kv => is_plain_value (snd kv)) d)
  then Some (Exn "TypeError" "Object of type IFDRational is not JSON serializable")
  else Some (Exn "TypeError"
               "'<' not supported between instances of 'str' and 'int'").

Definition demo_tags (tag_id : Z) : option string :=
  if tag_id =? 271 then Some "Make"
  else if tag_id =? 37500 then Some "MakerNote"
  else None.

(** Text of 7-bit bytes only. *)
Definition demo_decode (b : bytes) : option string :=
  if forallb (fun x => (Byte.to_N x <? 128)%N) b
  then Some (string_of_list_ascii (map ascii_of_byte b))
  else None.

Definition hex_digit (n : N) : ascii :=
  match String.get (N.to_nat n) "0123456789abcdef" with
  | Some c => c
  | None => "?"%char
  end.

Definition demo_bytes_str (b : bytes) : string :=
  "b'" ++ string_of_list_ascii
            (flat_map (fun x =>
                         let n := Byte.to_N x in
                         if ((32 <=? n) && (n <? 127))%N then [ascii_of_byte x]
                         else ["\"%char; "x"%char;
                               hex_digit (n / 16); hex_digit (n mod 16)])
                      b)
       ++ "'".

Definition demo_nfkd_ascii (s : string) : string :=
  string_of_list_ascii
    (List.filter (fun c => (PyStr.ord c <? 128)%N) (list_ascii_of_string s)).

(** [repr(s)] on ASCII text: in single quotes, or in double quotes when
    the text has a single quote and no double quote; the quote, the
    backslash and the characters that do not print are escaped. *)
Definition demo_repr (s : string) : string :=
  let cs := list_ascii_of_string s in
  let quote :=
    if existsb (Ascii.eqb "'") cs && negb (existsb (Ascii.eqb "034") cs)
    then "034"%char else "'"%char in
  let escape (c : ascii) : list ascii :=
    let n := PyStr.ord c in
    if Ascii.eqb c quote || Ascii.eqb c "\" then ["\"%char; c]
    else if (n =? 9)%N then ["\"%char; "t"%char]
    else if (n =? 10)%N then ["\"%char; "n"%char]
    else if (n =? 13)%N then ["\"%char; "r"%char]
    else if ((n <? 32) || (n =? 127))%N
         then ["\"%char; "x"%char; hex_digit (n / 16); hex_digit (n mod 16)]
         else [c] in
  String quote (string_of_list_ascii (flat_map escape cs) ++ String quote "").

(** The text of the [ValueError] of [int(s)]: the number is too long
    when the digits are those of a number, the literal is invalid
    otherwise. *)
Definition demo_int_error_text (s : string) : string :=
  match PyStr.int_of_str 0 s with
  | Some _ =>
      "Exceeds the limit (4300 digits) for integer string conversion: value has "
      ++ NilEmpty.string_of_uint
           (N.to_uint (PyStr.count_digits (list_ascii_of_string s)))
      ++ " digits; use sys.set_int_max_str_digits() to increase the limit"
  | None => "invalid literal for int() with base 10: " ++ demo_repr s
  end.

#[export] Instance platform : Platform := {|
  urlopen := demo_urlopen;
  Image_open := demo_open;
  Image_save := demo_save;
  save_removes_created := true;
  Image_save_jpeg := demo_save_jpeg;
  Image_resize := fun img _ => Ok (im_data img);
  TAGS := demo_tags;
  bytes_decode := demo_decode;
  bytes_str := demo_bytes_str;
  nfkd_ascii := demo_nfkd_ascii;
  int_unicode := fun _ => None;
  int_max_str_digits := 4300;
  int_error_text := demo_int_error_text;
  json_error := demo_json_error
|}.

(** An empty uploads directory and nothing done yet. *)
Definition w0 : world := World ∅ [].

Definition url_request (url : string) : request :=
  {| form := [("imageUrl", url)]; files := [] |}.

Definition upload_request (name : string) (data : bytes) : request :=
  {| form := [("width", "100"); ("height", "100")];
     files := [("image", {| filename := name; stream := data |})] |}.

(** A request with both an [imageUrl] and an uploaded [image]. *)
Definition both_sources : request :=
  {| form := [("imageUrl", "http://example.com/pics/photo.jpg")];
     files := [("image", {| filename := "other.png"; stream := logo_data |})] |}.

(** A URL nothing answers at, and what [urlopen] raises for it. *)
Definition unreachable_url : string := "http://nowhere.invalid/x.png".

Definition unreachable_error : exn :=
  Exn "URLError" "<urlopen error [Errno -2] Name or service not known>".

(** An upload that is no image. *)
Definition text_upload : request := upload_request "notes.txt" [x00].

(** The photograph lying in the uploads directory. *)
Definition w_photo : world :=
  World (<["uploads/photo.jpg" := photo_data]> ∅) [].

(** The answer to a request for the photograph by URL. *)
Definition photo_response : response :=
  Response 200
    (ThumbnailBody "data:image/jpeg;base64,/9hQSE9UTw=="
       [(TagName "Make", VStr "TestCam"); (TagName "MakerNote", VStr "b'\xff'")]).

End Demo.

(** ** What a computation does to the world *)

(** [m] keeps the events already made and adds only events satisfying [P]. *)
Definition adds_only {A} (P : event -> Prop) (m : M A) : Prop :=
  forall w, exists evs, trace (snd (m w)) = (trace w ++ evs)%list /\ Forall P evs.

(** [m] leaves every file as it is. *)
Definition keeps_disk {A} (m : M A) : Prop :=
  forall w, disk (snd (m w)) = disk w.

Definition not_upload_save (ev : event) : Prop := forall p, ev <> UploadSave p.

Definition not_image_open (ev : event) : Prop := forall p, ev <> ImageOpen p.

(** ** The aspect ratio, within rounding *)

(** [size] has the aspect ratio of [img] within rounding: one side of
    [size] is less than one pixel away from the other side scaled by the
    exact ratio width/height of [img]. *)
Definition keeps_aspect (img : Image) (size : Z * Z) : Prop :=
  let aspect := (inject_Z (im_width img) / inject_Z (im_height img))%Q in
  (Qabs (inject_Z (fst size) - inject_Z (snd size) * aspect) < 1)%Q \/
  (Qabs (inject_Z (snd size) - inject_Z (fst size) / aspect) < 1)%Q.

(** ** More words for what a computation does *)

Definition not_urlopen (ev : event) : Prop := forall url, ev <> Urlopen url.

Definition not_print (ev : event) : Prop := forall line, ev <> Print line.

(** [m] changes no file other than the one at [path]. *)
Definition touches_only {A} (path : string) (m : M A) : Prop :=
  forall w p, p <> path -> disk (snd (m w)) !! p = disk w !! p.

(** The test both helpers make on their path. *)
Definition is_url (path : string) : bool :=
  PyStr.startswith path "http://" || PyStr.startswith path "https://".

(** A path right inside the uploads directory whose file name has only
    letters, digits, underscores, dots and dashes. *)
Definition in_uploads (path : string) : Prop :=
  exists name,
    path = "uploads/" ++ name /\
    forallb Werkzeug.is_safe (list_ascii_of_string name) = true.

(** Every path the event names is right inside the uploads directory. *)
Definition stays_in_uploads (ev : event) : Prop :=
  match ev with
  | Urlopen _ | Print _ => True
  | ImageOpen p | ImageSave p | UploadSave p | OsRemove p => in_uploads p
  end.

Section Target.
Context `{Platform}.

(** The one path a request can use in the uploads directory: the
    [temp_filepath] of lines 100-101 when the form has an [imageUrl],
    the [image_path] of lines 110-111 when it has an uploaded [image]. *)
Definition target_path (req : request) : string :=
  match assoc "imageUrl" (form req) with
  | Some image_url =>
      OsPath.join UPLOAD_FOLDER (Werkzeug.secure_filename (OsPath.basename image_url))
  | None =>
      match assoc "image" (files req) with
      | Some image_file =>
          OsPath.join UPLOAD_FOLDER (Werkzeug.secure_filename (filename image_file))
      | None => ""
      end
  end.

(** A tag table with its identifiers translated and its bytes decoded,
    entry by entry. *)
Definition translate (exif_data : list (Z * exif_value)) : dict :=
  map (fun '(tag_id, value) => (Server.tag_of tag_id, Server.decode_value value))
      exif_data.

End Target.

(** What the disk can give for a local path: the decoded image, or the
    exception of the read or of the decoding. *)
Definition decode_file `{Platform} (path : string) (files : gmap string bytes)
  : result Image :=
  if is_dir path then Raise (IsADirectoryError path)
  else match files !! path with
       | Some data => Image_open data
       | None => Raise (FileNotFoundError path)
       end.

(** The mapping [get_image_metadata] makes of a decoded image. *)
Definition metadata_of `{Platform} (img : Image) : dict :=
  match im_getexif img with
  | Ok (Some exif_data) => Server.collect_metadata exif_data
  | Ok None | Raise _ => []
  end.

(** The one call a helper makes to get its image: [urlopen(path)] for
    an http(s) path, [Image.open(path)] on the local file otherwise. *)
Definition open_event (path : string) : event :=
  if is_url path then Urlopen path else ImageOpen path.

(** The handler from line 116 on, once the source is known. *)
Definition respond `{Platform} (src : Server.source) (width height : Z) : M response :=
  let* thumbnail_io :=
    Server.generate_thumbnail (Server.image_path src) width height in
  match thumbnail_io with
  | None => ret (Response 500 (ErrorBody "Failed to generate thumbnail"))
  | Some thumbnail_io =>
      let* metadata := Server.get_image_metadata (Server.image_path src) in
      let* _ := Server.cleanup src in
      lift (Server.jsonify_thumbnail
              (Server.data_url_prefix ++ Base64.b64encode thumbnail_io) metadata)
  end.

(** The world after a series of requests, handled one after the other
    whatever each one's outcome. *)
Fixpoint serve `{Platform} (reqs : list request) (w : world) : world :=
  match reqs with
  | [] => w
  | req :: rest => serve rest (snd (Server.thumbnail req w))
  end.

Module DemoRequests.
Import Demo.

(** A request without any image. *)
Definition empty_request : request := {| form := []; files := [] |}.

(** The photograph uploaded under a name and sent without a name. *)
Definition photo_upload : request := upload_request "my photo.jpg" photo_data.

Definition unnamed_upload : request := upload_request "" photo_data.

Definition photo_by_url : request := url_request "http://example.com/pics/photo.jpg".

Definition logo_by_url : request := url_request "http://example.com/logo.png".


(** The logo served under the name of a photograph. *)
Definition logo_as_jpg : request := url_request "http://example.com/icons/photo.jpg".


(** The uploads directory with an earlier upload called photo.jpg. *)
Definition w_earlier : world :=
  World (<["uploads/photo.jpg" := logo_data]> ∅) [].

End DemoRequests.

(** * Properties *)

(** ** The Python primitives on examples *)

Example int_of_str_plain : PyStr.int_of_str 4300 "100" = Some 100.
Proof. reflexivity. Qed.

Example int_of_str_blank_sign : PyStr.int_of_str 4300 " -7 " = Some (-7).
Proof. reflexivity. Qed.

Example int_of_str_underscore : PyStr.int_of_str 4300 "1_000" = Some 1000.
Proof. reflexivity. Qed.

Example int_of_str_word : PyStr.int_of_str 4300 "abc" = None.
Proof. reflexivity. Qed.

Example int_of_str_float : PyStr.int_of_str 4300 "1.5" = None.
Proof. reflexivity. Qed.

Example int_of_str_empty : PyStr.int_of_str 4300 "" = None.
Proof. reflexivity. Qed.

Example int_of_str_bad_underscore : PyStr.int_of_str 4300 "1__0" = None.
Proof. reflexivity. Qed.

(** TAB is a blank for [int]; the separator FS (code 28) is not. *)
Example int_of_str_tab : PyStr.int_of_str 4300 (String "009" "12") = Some 12.
Proof. reflexivity. Qed.

Example int_of_str_separator : PyStr.int_of_str 4300 (String "028" "12") = None.
Proof. reflexivity. Qed.

Example split_ws_separator :
  PyStr.split_ws [] (list_ascii_of_string (String "028" "12"))
  = [list_ascii_of_string "12"].
Proof. reflexivity. Qed.

Example int_of_str_leading_zeros : PyStr.int_of_str 4300 "007" = Some 7.
Proof. reflexivity. Qed.

Example int_of_str_inner_blank : PyStr.int_of_str 4300 "1 2" = None.
Proof. reflexivity. Qed.

Example basename_url :
  OsPath.basename "http://example.com/pics/cat.png" = "cat.png".
Proof. reflexivity. Qed.

Example basename_trailing_slash : OsPath.basename "http://example.com/" = "".
Proof. reflexivity. Qed.

Example join_uploads : OsPath.join "uploads" "cat.png" = "uploads/cat.png".
Proof. reflexivity. Qed.

Example join_empty : OsPath.join "uploads" "" = "uploads/".
Proof. reflexivity. Qed.

Example b64encode_Man :
  Base64.b64encode ["M"%byte; "a"%byte; "n"%byte] = "TWFu".
Proof. reflexivity. Qed.

Example b64encode_Ma : Base64.b64encode ["M"%byte; "a"%byte] = "TWE=".
Proof. reflexivity. Qed.

Example b64encode_M : Base64.b64encode ["M"%byte] = "TQ==".
Proof. reflexivity. Qed.

Example b64decode_TWE : Base64.b64decode "TWE=" = Some ["M"%byte; "a"%byte].
Proof. reflexivity. Qed.

Example secure_ascii_traversal :
  Werkzeug.secure_ascii (list_ascii_of_string "../../../etc/passwd")
  = list_ascii_of_string "etc_passwd".
Proof. reflexivity. Qed.

Example secure_ascii_blanks :
  Werkzeug.secure_ascii (list_ascii_of_string "My cool movie.mov")
  = list_ascii_of_string "My_cool_movie.mov".
Proof. reflexivity. Qed.

Example secure_ascii_dots : Werkzeug.secure_ascii (list_ascii_of_string "..") = [].
Proof. reflexivity. Qed.

Example secure_ascii_hidden :
  Werkzeug.secure_ascii (list_ascii_of_string ".bashrc") = list_ascii_of_string "bashrc".
Proof. reflexivity. Qed.

(** ** Base64: decoding undoes encoding *)

Module Base64Facts.

Import Base64.
Local Open Scope N_scope.

Ltac euclid := zify; Z.to_euclidean_division_equations; lia.

Lemma below_64 (n : N) : n < 64 -> In (N.to_nat n) (seq 0 64).
Proof. intros H. apply in_seq. lia. Qed.

Lemma index_of_char_of (n : N) : n < 64 -> index_of (char_of n) = Some n.
Proof.
  intros H.
  assert (All : forallb (fun k => match index_of (char_of (N.of_nat k)) with
                                  | Some m => m =? N.of_nat k
                                  | None => false
                                  end) (seq 0 64) = true) by (vm_compute; reflexivity).
  rewrite forallb_forall in All.
  specialize (All _ (below_64 n H)). rewrite N2Nat.id in All.
  destruct (index_of (char_of n)) as [m|]; [|discriminate].
  apply N.eqb_eq in All. now subst.
Qed.

Lemma char_of_not_pad (n : N) : n < 64 -> Ascii.eqb (char_of n) pad = false.
Proof.
  intros H.
  assert (All : forallb (fun k => negb (Ascii.eqb (char_of (N.of_nat k)) pad))
                  (seq 0 64) = true) by (vm_compute; reflexivity).
  rewrite forallb_forall in All.
  specialize (All _ (below_64 n H)). rewrite N2Nat.id in All.
  now apply negb_true_iff in All.
Qed.

Lemma sextet_lt (n k : N) : sextet n k < 64.
Proof. unfold sextet. apply N.mod_upper_bound. discriminate. Qed.

Lemma pack3_lt (a b c : N) : a < 256 -> b < 256 -> c < 256 -> pack3 a b c < 16777216.
Proof. unfold pack3. lia. Qed.

Lemma unpack_sextets (n : N) :
  n < 16777216 ->
  unpack4 (sextet n 3) (sextet n 2) (sextet n 1) (sextet n 0) = n.
Proof.
  intros H. unfold unpack4, sextet.
  change (64 ^ 3) with 262144. change (64 ^ 2) with 4096.
  change (64 ^ 1) with 64. change (64 ^ 0) with 1.
  euclid.
Qed.

Lemma sextet_low_zero (a b : N) : sextet (pack3 a b 0) 0 = 0.
Proof. unfold sextet, pack3. change (64 ^ 0) with 1. euclid. Qed.

Lemma sextet_mid_zero (a : N) : sextet (pack3 a 0 0) 1 = 0.
Proof. unfold sextet, pack3. change (64 ^ 1) with 64. euclid. Qed.

Lemma byte_lt (b : byte) : Byte.to_N b < 256.
Proof. pose proof (Byte.to_N_bounded b). lia. Qed.

Lemma octet_some (n k : N) : exists b, octet n k = Some b.
Proof.
  unfold octet. destruct (Byte.of_N ((n / 256 ^ k) mod 256)) as [b|] eqn:E; [eauto|].
  apply Byte.of_N_None_iff in E.
  pose proof (N.mod_upper_bound (n / 256 ^ k) 256). lia.
Qed.

Lemma octets_pack3 (a b c : byte) :
  let n := pack3 (Byte.to_N a) (Byte.to_N b) (Byte.to_N c) in
  octet n 2 = Some a /\ octet n 1 = Some b /\ octet n 0 = Some c.
Proof.
  intros n. subst n. unfold octet, pack3.
  pose proof (byte_lt a). pose proof (byte_lt b). pose proof (byte_lt c).
  change (256 ^ 2) with 65536. change (256 ^ 1) with 256. change (256 ^ 0) with 1.
  repeat split.
  - rewrite <- (Byte.of_to_N a). f_equal. euclid.
  - rewrite <- (Byte.of_to_N b). f_equal. euclid.
  - rewrite <- (Byte.of_to_N c). f_equal. euclid.
Qed.

(** A group of four characters made from three bytes decodes to them. *)
Lemma decode_group_pack3 (a b c : byte) (keep : nat) :
  let n := pack3 (Byte.to_N a) (Byte.to_N b) (Byte.to_N c) in
  decode_group (char_of (sextet n 3)) (char_of (sextet n 2))
               (char_of (sextet n 1)) (char_of (sextet n 0)) keep
  = Some (firstn keep [a; b; c]).
Proof.
  intros n. unfold decode_group.
  rewrite !index_of_char_of by apply sextet_lt.
  cbv zeta. rewrite unpack_sextets by (apply pack3_lt; apply byte_lt).
  destruct (octets_pack3 a b c) as (Ha & Hb & Hc).
  fold n in Ha, Hb, Hc. rewrite Ha, Hb, Hc. reflexivity.
Qed.

Lemma index_of_A : index_of "A" = Some 0.
Proof. reflexivity. Qed.

Lemma decode_last_one (a : byte) :
  let n := pack3 (Byte.to_N a) 0 0 in
  decode_last (char_of (sextet n 3)) (char_of (sextet n 2)) pad pad = Some [a].
Proof.
  intros n. unfold decode_last. rewrite Ascii.eqb_refl.
  pose proof (decode_group_pack3 a x00 x00 1) as G. cbv zeta in G.
  change (Byte.to_N x00) with 0 in G. fold n in G.
  unfold n in G at 3 4. rewrite sextet_mid_zero, sextet_low_zero in G.
  exact G.
Qed.

Lemma decode_last_two (a b : byte) :
  let n := pack3 (Byte.to_N a) (Byte.to_N b) 0 in
  decode_last (char_of (sextet n 3)) (char_of (sextet n 2))
              (char_of (sextet n 1)) pad = Some [a; b].
Proof.
  intros n. unfold decode_last. rewrite Ascii.eqb_refl.
  rewrite char_of_not_pad by apply sextet_lt.
  pose proof (decode_group_pack3 a b x00 2) as G. cbv zeta in G.
  change (Byte.to_N x00) with 0 in G. fold n in G.
  unfold n in G at 4. rewrite sextet_low_zero in G.
  exact G.
Qed.

Lemma decode_last_three (a b c : byte) :
  let n := pack3 (Byte.to_N a) (Byte.to_N b) (Byte.to_N c) in
  decode_last (char_of (sextet n 3)) (char_of (sextet n 2))
              (char_of (sextet n 1)) (char_of (sextet n 0)) = Some [a; b; c].
Proof.
  intros n. unfold decode_last.
  rewrite !char_of_not_pad by apply sextet_lt.
  apply (decode_group_pack3 a b c 3).
Qed.

(** Induction on byte strings three bytes at a time, as [encode] reads them. *)
Lemma bytes_ind3 (P : bytes -> Prop) :
  P [] -> (forall a, P [a]) -> (forall a b, P [a; b]) ->
  (forall a b c rest, P rest -> P (a :: b :: c :: rest)) ->
  forall bs, P bs.
Proof.
  intros H0 H1 H2 H3.
  assert (forall bs, P bs /\ (forall a, P (a :: bs)) /\ (forall a b, P (a :: b :: bs)))
    as All.
  { induction bs as [|x bs (IH0 & IH1 & IH2)]; [now auto|].
    split; [apply IH1|]. split; [intros a; apply IH2|]. intros a b. now apply H3. }
  intros bs. apply All.
Qed.

Lemma decode_encode (bs : bytes) : decode (encode bs) = Some bs.
Proof.
  induction bs as [|a|a b|a b c rest IH] using bytes_ind3.
  - reflexivity.
  - apply decode_last_one.
  - apply decode_last_two.
  - change (encode (a :: b :: c :: rest)) with
      (let n := pack3 (Byte.to_N a) (Byte.to_N b) (Byte.to_N c) in
       char_of (sextet n 3) :: char_of (sextet n 2)
         :: char_of (sextet n 1) :: char_of (sextet n 0) :: encode rest).
    cbv zeta. cbn [decode]. fold decode.
    destruct (encode rest) as [|r rs] eqn:E.
    + injection IH as <-. apply decode_last_three.
    + rewrite (decode_group_pack3 a b c 3), IH. reflexivity.
Qed.

End Base64Facts.

(** ** Running computations *)

Lemma bind_ok {A B} (m : M A) (k : A -> M B) (w w1 : world) (a : A) :
  m w = (Ok a, w1) -> bind m k w = k a w1.
Proof. intros E. unfold bind. now rewrite E. Qed.

Lemma bind_raise {A B} (m : M A) (k : A -> M B) (w w1 : world) (e : exn) :
  m w = (Raise e, w1) -> bind m k w = (Raise e, w1).
Proof. intros E. unfold bind. now rewrite E. Qed.

Lemma try_ok {A} (m : M A) (h : exn -> M A) (w w1 : world) (a : A) :
  m w = (Ok a, w1) -> try_except m h w = (Ok a, w1).
Proof. intros E. unfold try_except. now rewrite E. Qed.

Lemma try_raise {A} (m : M A) (h : exn -> M A) (w w1 : world) (e : exn) :
  m w = (Raise e, w1) -> try_except m h w = h e w1.
Proof. intros E. unfold try_except. now rewrite E. Qed.

(** A computation stops in exactly one of two ways. *)
Lemma run_cases {A} (m : M A) (w : world) :
  (exists a w1, m w = (Ok a, w1)) \/ (exists e w1, m w = (Raise e, w1)).
Proof. destruct (m w) as [[a|e] w1]; eauto. Qed.

(** *** Events only accumulate *)

Lemma adds_only_ret {A} P (a : A) : adds_only P (ret a).
Proof. intros w. exists []. simpl. now rewrite app_nil_r. Qed.

Lemma adds_only_raise {A} P (e : exn) : adds_only P (@raise A e).
Proof. intros w. exists []. simpl. now rewrite app_nil_r. Qed.

Lemma adds_only_lift {A} P (r : result A) : adds_only P (lift r).
Proof. intros w. exists []. simpl. now rewrite app_nil_r. Qed.

Lemma adds_only_emit (P : event -> Prop) (ev : event) : P ev -> adds_only P (emit ev).
Proof. intros HP w. exists [ev]. simpl. auto. Qed.

Lemma adds_only_bind {A B} P (m : M A) (k : A -> M B) :
  adds_only P m -> (forall a, adds_only P (k a)) -> adds_only P (bind m k).
Proof.
  intros Hm Hk w. unfold bind.
  destruct (Hm w) as (evs & Et & Hevs).
  destruct (m w) as [[a|e] w1]; simpl in *.
  - destruct (Hk a w1) as (evs' & Et' & Hevs').
    exists (evs ++ evs')%list. rewrite Et', Et, app_assoc.
    split; [reflexivity | now apply Forall_app].
  - now exists evs.
Qed.

Lemma adds_only_try {A} P (m : M A) (h : exn -> M A) :
  adds_only P m -> (forall e, adds_only P (h e)) -> adds_only P (try_except m h).
Proof.
  intros Hm Hh w. unfold try_except.
  destruct (Hm w) as (evs & Et & Hevs).
  destruct (m w) as [[a|e] w1]; simpl in *.
  - now exists evs.
  - destruct (Hh e w1) as (evs' & Et' & Hevs').
    exists (evs ++ evs')%list. rewrite Et', Et, app_assoc.
    split; [reflexivity | now apply Forall_app].
Qed.

Lemma adds_only_read_file P (path : string) : adds_only P (read_file path).
Proof.
  intros w. exists []. rewrite app_nil_r. unfold read_file.
  destruct (is_dir path); [|destruct (disk w !! path)]; auto.
Qed.

Lemma adds_only_write_file P (path : string) (data : bytes) :
  adds_only P (write_file path data).
Proof.
  intros w. exists []. rewrite app_nil_r. unfold write_file.
  destruct (is_dir path); auto.
Qed.

Lemma adds_only_path_exists P (path : string) : adds_only P (path_exists path).
Proof. intros w. exists []. now rewrite app_nil_r. Qed.

Lemma adds_only_unlink P (path : string) : adds_only P (unlink path).
Proof. intros w. exists []. now rewrite app_nil_r. Qed.

Lemma adds_only_os_remove (P : event -> Prop) (path : string) :
  P (OsRemove path) -> adds_only P (os_remove path).
Proof.
  intros HP. unfold os_remove. apply adds_only_bind; [now apply adds_only_emit|].
  intros _ w. exists []. rewrite app_nil_r.
  destruct (is_dir path); [|destruct (disk w !! path)]; auto.
Qed.

(** *** Who touches the disk *)

Lemma keeps_disk_ret {A} (a : A) : keeps_disk (ret a).
Proof. now intros w. Qed.

Lemma keeps_disk_lift {A} (r : result A) : keeps_disk (lift r).
Proof. now intros w. Qed.

Lemma keeps_disk_emit (ev : event) : keeps_disk (emit ev).
Proof. now intros w. Qed.

Lemma keeps_disk_read_file (path : string) : keeps_disk (read_file path).
Proof.
  intros w. unfold read_file.
  destruct (is_dir path); [|destruct (disk w !! path)]; auto.
Qed.

Lemma keeps_disk_bind {A B} (m : M A) (k : A -> M B) :
  keeps_disk m -> (forall a, keeps_disk (k a)) -> keeps_disk (bind m k).
Proof.
  intros Hm Hk w. unfold bind. specialize (Hm w).
  destruct (m w) as [[a|e] w1]; simpl in *; [|assumption].
  now rewrite Hk.
Qed.

Lemma keeps_disk_try {A} (m : M A) (h : exn -> M A) :
  keeps_disk m -> (forall e, keeps_disk (h e)) -> keeps_disk (try_except m h).
Proof.
  intros Hm Hh w. unfold try_except. specialize (Hm w).
  destruct (m w) as [[a|e] w1]; simpl in *; [assumption|].
  now rewrite Hh.
Qed.

(** ** Width and height *)

Section Fields.
Context `{Platform}.
Import Server.

Lemma assoc_with_field_same {name value : string} (req : request) :
  assoc name (form (with_field name value req)) = Some value.
Proof. simpl. now rewrite String.eqb_refl. Qed.

Lemma assoc_with_field_other (name value other : string) (req : request) :
  name <> other ->
  assoc other (form (with_field name value req)) = assoc other (form req).
Proof.
  intros Hne. simpl.
  destruct (String.eqb_spec name other); [contradiction | reflexivity].
Qed.

Lemma int_field_with_field_other (name value other : string) (req : request) :
  name <> other ->
  int_field other (with_field name value req) = int_field other req.
Proof.
  intros Hne. unfold int_field. now rewrite assoc_with_field_other.
Qed.

(** What [int] reads does not depend on the platform for short plain
    text. *)
Example py_int_plain_text :
  py_int "abc" = None /\ py_int "1.5" = None /\ py_int "" = None /\
  py_int "12px" = None /\ py_int (String "028" "12") = None /\
  py_int " 42 " = Some 42 /\ py_int "-3" = Some (-3).
Proof. repeat split. Qed.

Lemma int_field_absent (name : string) (req : request) :
  assoc name (form req) = None -> int_field name req = Ok 100.
Proof. intros E. unfold int_field. now rewrite E. Qed.

Lemma int_field_hundred (name : string) (req : request) :
  int_field name (with_field name "100" req) = Ok 100.
Proof. unfold int_field. now rewrite assoc_with_field_same. Qed.

Lemma int_field_literal (name s : string) (n : Z) (req : request) :
  assoc name (form req) = Some s -> py_int s = Some n ->
  int_field name req = Ok n.
Proof. intros E1 E2. unfold int_field. now rewrite E1, E2. Qed.

Lemma int_field_malformed (name s : string) (req : request) :
  assoc name (form req) = Some s -> py_int s = None ->
  exists e, int_field name req = Raise e /\ exn_class e = "ValueError".
Proof. intros E1 E2. unfold int_field. rewrite E1, E2. eauto. Qed.

Lemma int_field_raises_ValueError (name : string) (req : request) (e : exn) :
  int_field name req = Raise e -> exn_class e = "ValueError".
Proof.
  unfold int_field. destruct (assoc name (form req)) as [s|]; [|discriminate].
  destruct (py_int s); [discriminate|].
  now intros [= <-].
Qed.

Lemma resolve_source_with_field (name value : string) (req : request) :
  name <> "imageUrl" ->
  resolve_source (with_field name value req) = resolve_source req.
Proof.
  intros Hne. unfold resolve_source.
  now rewrite assoc_with_field_other.
Qed.

(** The handler once both fields are read. *)
Lemma thumbnail_fields_ok (req : request) (w : world) (width height : Z) :
  int_field "width" req = Ok width -> int_field "height" req = Ok height ->
  thumbnail req w =
    (let* resolved := resolve_source req in
     match resolved with
     | inl early => ret early
     | inr src =>
         let* thumbnail_io := generate_thumbnail (image_path src) width height in
         match thumbnail_io with
         | None => ret (Response 500 (ErrorBody "Failed to generate thumbnail"))
         | Some thumbnail_io =>
             let* metadata := get_image_metadata (image_path src) in
             let* _ := cleanup src in
             lift (jsonify_thumbnail
                     (data_url_prefix ++ Base64.b64encode thumbnail_io) metadata)
         end
     end) w.
Proof. intros Ew Eh. unfold thumbnail. now rewrite Ew, Eh. Qed.

Lemma thumbnail_width_raises (req : request) (w : world) (e : exn) :
  int_field "width" req = Raise e -> thumbnail req w = (Raise e, w).
Proof. intros E. unfold thumbnail. now rewrite E. Qed.

Lemma thumbnail_height_raises (req : request) (w : world) (width : Z) (e : exn) :
  int_field "width" req = Ok width -> int_field "height" req = Raise e ->
  thumbnail req w = (Raise e, w).
Proof. intros Ew Eh. unfold thumbnail. now rewrite Ew, Eh. Qed.

(** C4. Width and height come from the form fields of these names: an
    absent field counts as 100 (the handler answers as it does when the
    field is sent as "100"), a field that [int] reads gives that
    integer, and a field that is present and that [int] does not read
    makes the handler raise [ValueError], which nothing catches: no
    default is taken and no response, 400 or other, is made; the world
    is left as it was. *)
Theorem dimension_fields (req : request) (w : world) (name : string) :
  name = "width" \/ name = "height" ->
  (assoc name (form req) = None ->
     int_field name req = Ok 100 /\
     thumbnail req w = thumbnail (with_field name "100" req) w) /\
  (forall s n, assoc name (form req) = Some s -> py_int s = Some n ->
     int_field name req = Ok n) /\
  (forall s, assoc name (form req) = Some s -> py_int s = None ->
     exists e, exn_class e = "ValueError" /\ thumbnail req w = (Raise e, w)).
Proof.
  intros Hname. repeat split.
  - now apply int_field_absent.
  - apply int_field_absent in H0 as E.
    unfold thumbnail.
    destruct Hname as [-> | ->].
    + rewrite int_field_hundred, E.
      rewrite int_field_with_field_other by discriminate.
      now rewrite resolve_source_with_field by discriminate.
    + rewrite int_field_hundred, E.
      rewrite int_field_with_field_other by discriminate.
      now rewrite resolve_source_with_field by discriminate.
  - intros s n. apply int_field_literal.
  - intros s E1 E2.
    destruct (int_field_malformed name s req E1 E2) as (e & Ee & Hc).
    destruct Hname as [-> | ->].
    + exists e. split; [assumption|]. now apply thumbnail_width_raises.
    + destruct (int_field "width" req) as [width|e'] eqn:Ew.
      * exists e. split; [assumption|]. now apply (thumbnail_height_raises _ _ width).
      * exists e'. split; [now apply (int_field_raises_ValueError "width" req)|].
        now apply thumbnail_width_raises.
Qed.

End Fields.

Section FieldsDemo.
Local Existing Instance Demo.platform.
Import Server.

Lemma dimension_fields_witness :
  (int_field "width" (Demo.url_request "http://example.com/pics/photo.jpg") = Ok 100 /\
   thumbnail (Demo.url_request "http://example.com/pics/photo.jpg") Demo.w0
   = thumbnail (with_field "width" "100"
                  (Demo.url_request "http://example.com/pics/photo.jpg")) Demo.w0) /\
  int_field "height"
    (with_field "height" " +4_2 " (Demo.url_request "http://example.com/pics/photo.jpg"))
  = Ok 42 /\
  (exists e,
     exn_class e = "ValueError" /\
     thumbnail (with_field "width" "abc"
                  (Demo.url_request "http://example.com/pics/photo.jpg")) Demo.w0
     = (Raise e, Demo.w0)) /\
  (exists e,
     exn_class e = "ValueError" /\
     thumbnail (with_field "height" (String "028" "12")
                  (Demo.url_request "http://example.com/pics/photo.jpg")) Demo.w0
     = (Raise e, Demo.w0)).
Proof.
  split; [|split; [|split]].
  - apply (proj1 (dimension_fields (Demo.url_request "http://example.com/pics/photo.jpg")
                    Demo.w0 "width" (or_introl eq_refl))).
    reflexivity.
  - apply (proj1 (proj2 (dimension_fields
                           (with_field "height" " +4_2 "
                              (Demo.url_request "http://example.com/pics/photo.jpg"))
                           Demo.w0 "height" (or_intror eq_refl)))
             " +4_2 " 42); reflexivity.
  - apply (proj2 (proj2 (dimension_fields
                           (with_field "width" "abc"
                              (Demo.url_request "http://example.com/pics/photo.jpg"))
                           Demo.w0 "width" (or_introl eq_refl)))
             "abc"); reflexivity.
  - apply (proj2 (proj2 (dimension_fields
                           (with_field "height" (String "028" "12")
                              (Demo.url_request "http://example.com/pics/photo.jpg"))
                           Demo.w0 "height" (or_intror eq_refl)))
             (String "028" "12")); reflexivity.
Defined.

(** The exception carries the text Python gives it, the field in its
    printed form. *)
Example malformed_height_text :
  thumbnail (with_field "height" (String "028" "12")
               (Demo.url_request "http://example.com/pics/photo.jpg")) Demo.w0
  = (Raise (Exn "ValueError" "invalid literal for int() with base 10: '\x1c12'"),
     Demo.w0).
Proof. vm_compute. reflexivity. Qed.

End FieldsDemo.

(** ** The parts of the handler *)

Ltac events_step :=
  first
    [ apply adds_only_ret | apply adds_only_lift | apply adds_only_raise
    | apply adds_only_read_file | apply adds_only_write_file
    | apply adds_only_path_exists | apply adds_only_unlink
    | apply adds_only_emit | apply adds_only_os_remove
    | apply adds_only_bind; [|intros ?]
    | apply adds_only_try; [|intros ?]
    | match goal with
      | |- adds_only _ (match ?x with _ => _ end) => destruct x
      end ].

(** Goals [adds_only P m] for [m] built from the primitives; what is left
    is [P ev] for the events [m] can make. *)
Ltac events := repeat events_step.

Ltac disk_step :=
  first
    [ apply keeps_disk_ret | apply keeps_disk_lift | apply keeps_disk_emit
    | apply keeps_disk_read_file
    | apply keeps_disk_bind; [|intros ?]
    | apply keeps_disk_try; [|intros ?]
    | match goal with
      | |- keeps_disk (match ?x with _ => _ end) => destruct x
      end ].

Ltac disk := repeat disk_step.

Section Parts.
Context `{Platform}.
Import Server.

Lemma adds_only_open_image (P : event -> Prop) (path : string) :
  P (Urlopen path) -> P (ImageOpen path) -> adds_only P (open_image path).
Proof. intros H1 H2. unfold open_image, fetch. events; assumption. Qed.

Lemma adds_only_generate_thumbnail (P : event -> Prop) (path : string) (width height : Z) :
  P (Urlopen path) -> P (ImageOpen path) -> (forall line, P (Print line)) ->
  adds_only P (generate_thumbnail path width height).
Proof.
  intros H1 H2 H3. unfold generate_thumbnail, print.
  events; auto using adds_only_open_image.
Qed.

Lemma adds_only_get_image_metadata (P : event -> Prop) (path : string) :
  P (Urlopen path) -> P (ImageOpen path) -> (forall line, P (Print line)) ->
  adds_only P (get_image_metadata path).
Proof.
  intros H1 H2 H3. unfold get_image_metadata, print.
  events; auto using adds_only_open_image.
Qed.

Lemma adds_only_download (P : event -> Prop) (url : string) :
  P (Urlopen url) -> (forall path, P (ImageSave path)) ->
  adds_only P (download url).
Proof. intros H1 H2. unfold download, fetch, image_save. events; auto. Qed.

Lemma adds_only_cleanup (P : event -> Prop) (src : source) :
  (forall path, P (OsRemove path)) -> (forall line, P (Print line)) ->
  adds_only P (cleanup src).
Proof. intros H1 H2. unfold cleanup, print. events; auto. Qed.

Lemma keeps_disk_open_image (path : string) : keeps_disk (open_image path).
Proof. unfold open_image, fetch. disk. Qed.

Lemma keeps_disk_generate_thumbnail (path : string) (width height : Z) :
  keeps_disk (generate_thumbnail path width height).
Proof. unfold generate_thumbnail, print. disk; apply keeps_disk_open_image. Qed.

Lemma keeps_disk_get_image_metadata (path : string) :
  keeps_disk (get_image_metadata path).
Proof. unfold get_image_metadata, print. disk; apply keeps_disk_open_image. Qed.

(** A save that returns has written the file. *)
Lemma image_save_ok_inv (img : Image) (path : string) (w w1 : world) :
  image_save img path w = (Ok tt, w1) ->
  is_dir path = false /\
  exists data,
    Image_save img path = Saved data /\
    w1 = World (<[path := data]> (disk w)) (trace w ++ [ImageSave path]).
Proof.
  unfold image_save, bind, emit, write_file, path_exists, unlink, raise, ret. simpl.
  destruct (Image_save img path) as [data|e|e partial].
  - destruct (is_dir path); [discriminate|]. intros [= <-]. eauto.
  - discriminate.
  - destruct (is_dir path); [discriminate|]. simpl.
    destruct (negb _ && save_removes_created); discriminate.
Qed.

(** A save changes no file but the one at its path. *)
Lemma image_save_other_files (img : Image) (path : string) (w : world) (p : string) :
  p <> path -> disk (snd (image_save img path w)) !! p = disk w !! p.
Proof.
  intros Hp.
  unfold image_save, bind, emit, write_file, path_exists, unlink, raise, ret. simpl.
  destruct (Image_save img path) as [data|e|e partial]; simpl.
  - destruct (is_dir path); simpl; [reflexivity | now apply lookup_insert_ne].
  - reflexivity.
  - destruct (is_dir path); simpl; [reflexivity|].
    destruct (negb _ && save_removes_created); simpl.
    + rewrite lookup_delete_ne by congruence. now apply lookup_insert_ne.
    + now apply lookup_insert_ne.
Qed.

(** The download, step by step. *)
Lemma download_steps (url : string) (w : world) :
  let w1 := World (disk w) (trace w ++ [Urlopen url]) in
  let path :=
    OsPath.join UPLOAD_FOLDER (Werkzeug.secure_filename (OsPath.basename url)) in
  download url w
  = match urlopen url with
    | Raise e => (Raise e, w1)
    | Ok stream =>
        match Image_open stream with
        | Raise e => (Raise e, w1)
        | Ok img =>
            match image_save img path w1 with
            | (Ok _, w2) => (Ok path, w2)
            | (Raise e, w2) => (Raise e, w2)
            end
        end
    end.
Proof.
  intros w1 path. unfold download, fetch, bind at 1 2 3 4, emit, lift. simpl.
  destruct (urlopen url) as [stream|e]; [|reflexivity].
  destruct (Image_open stream) as [img|e]; [|reflexivity].
  fold path. fold w1. unfold bind, ret.
  destruct (image_save img path w1) as [[[]|e] w2]; reflexivity.
Qed.

(** Neither helper lets an exception out. *)
Lemma generate_thumbnail_returns (path : string) (width height : Z) (w : world) :
  exists r w', generate_thumbnail path width height w = (Ok r, w').
Proof.
  unfold generate_thumbnail, try_except.
  match goal with |- context [match ?m w with _ => _ end] => destruct (m w) as [[r|e] w1] end;
    eauto.
Qed.

Lemma get_image_metadata_returns (path : string) (w : world) :
  exists metadata w', get_image_metadata path w = (Ok metadata, w').
Proof.
  unfold get_image_metadata, try_except.
  match goal with |- context [match ?m w with _ => _ end] => destruct (m w) as [[r|e] w1] end;
    eauto.
Qed.

(** A response [jsonify] makes of the final body is that body with
    status 200. *)
Lemma jsonify_thumbnail_ok_inv (url : string) (metadata : dict) (resp : response) :
  jsonify_thumbnail url metadata = Ok resp ->
  resp = Response 200 (ThumbnailBody url metadata).
Proof.
  unfold jsonify_thumbnail. destruct (is_plain metadata); [now intros [= <-]|].
  destruct (json_error metadata); [discriminate | now intros [= <-]].
Qed.


Lemma cleanup_returns (src : source) (w : world) :
  exists w', cleanup src w = (Ok tt, w').
Proof.
  unfold cleanup. destruct (temp_filepath src) as [p|]; [|now eexists].
  unfold try_except. destruct (os_remove p w) as [[[]|e] w1]; eauto.
Qed.

(** What [generate_thumbnail] returns, by what its three steps do. *)
Lemma generate_thumbnail_decode_fails path width height w e w1 :
  open_image path w = (Raise e, w1) ->
  generate_thumbnail path width height w
  = (Ok None, World (disk w1)
                    (trace w1 ++ [Print ("Error generating thumbnail: " ++ exn_str e)])).
Proof.
  intros E. unfold generate_thumbnail.
  erewrite try_raise by (erewrite bind_raise by exact E; reflexivity).
  reflexivity.
Qed.

Lemma generate_thumbnail_resize_fails path width height w img e w1 :
  open_image path w = (Ok img, w1) ->
  Pil.Image_thumbnail img (width, height) = Raise e ->
  generate_thumbnail path width height w
  = (Ok None, World (disk w1)
                    (trace w1 ++ [Print ("Error generating thumbnail: " ++ exn_str e)])).
Proof.
  intros E1 E2. unfold generate_thumbnail.
  erewrite try_raise; [reflexivity|].
  erewrite bind_ok by exact E1. unfold bind, lift. now rewrite E2.
Qed.

Lemma generate_thumbnail_encode_fails path width height w img img' e w1 :
  open_image path w = (Ok img, w1) ->
  Pil.Image_thumbnail img (width, height) = Ok img' ->
  Image_save_jpeg img' = Raise e ->
  generate_thumbnail path width height w
  = (Ok None, World (disk w1)
                    (trace w1 ++ [Print ("Error generating thumbnail: " ++ exn_str e)])).
Proof.
  intros E1 E2 E3. unfold generate_thumbnail.
  erewrite try_raise; [reflexivity|].
  erewrite bind_ok by exact E1. unfold bind, lift. now rewrite E2, E3.
Qed.

Lemma generate_thumbnail_succeeds path width height w img img' buf w1 :
  open_image path w = (Ok img, w1) ->
  Pil.Image_thumbnail img (width, height) = Ok img' ->
  Image_save_jpeg img' = Ok buf ->
  generate_thumbnail path width height w = (Ok (Some buf), w1).
Proof.
  intros E1 E2 E3. unfold generate_thumbnail.
  erewrite try_ok; [reflexivity|].
  erewrite bind_ok by exact E1. unfold bind, lift, ret. now rewrite E2, E3.
Qed.

(** A thumbnail that is returned is the JPEG encoding of the opened image
    after [img.thumbnail]. *)
Lemma generate_thumbnail_some_inv path width height w buf w' :
  generate_thumbnail path width height w = (Ok (Some buf), w') ->
  exists img img',
    open_image path w = (Ok img, w') /\
    Pil.Image_thumbnail img (width, height) = Ok img' /\
    Image_save_jpeg img' = Ok buf.
Proof.
  intros E.
  destruct (run_cases (open_image path) w) as [(img & w1 & E1) | (e & w1 & E1)].
  2: { rewrite (generate_thumbnail_decode_fails _ _ _ _ _ _ E1) in E. discriminate. }
  destruct (Pil.Image_thumbnail img (width, height)) as [img'|e] eqn:E2.
  2: { rewrite (generate_thumbnail_resize_fails _ _ _ _ _ _ _ E1 E2) in E. discriminate. }
  destruct (Image_save_jpeg img') as [buf'|e] eqn:E3.
  2: { rewrite (generate_thumbnail_encode_fails _ _ _ _ _ _ _ _ E1 E2 E3) in E.
       discriminate. }
  rewrite (generate_thumbnail_succeeds _ _ _ _ _ _ _ _ E1 E2 E3) in E.
  injection E as <- <-. eauto.
Qed.

End Parts.

(** ** The image source *)

Section Sources.
Context `{Platform}.
Import Server.

Lemma resolve_source_url (req : request) (url : string) :
  assoc "imageUrl" (form req) = Some url ->
  resolve_source req =
    try_except
      (let* temp_filepath := download url in
       ret (inr {| image_path := temp_filepath; temp_filepath := Some temp_filepath |}))
      (fun e =>
         ret (inl (Response 400
                     (ErrorBody ("Error downloading image from URL: " ++ exn_str e))))).
Proof. intros E. unfold resolve_source. now rewrite E. Qed.

Lemma resolve_source_download_fails req url w e w1 :
  assoc "imageUrl" (form req) = Some url ->
  download url w = (Raise e, w1) ->
  resolve_source req w
  = (Ok (inl (Response 400
                (ErrorBody ("Error downloading image from URL: " ++ exn_str e)))), w1).
Proof.
  intros E D. rewrite (resolve_source_url _ _ E).
  erewrite try_raise by (erewrite bind_raise by exact D; reflexivity).
  reflexivity.
Qed.

Lemma resolve_source_download_ok req url w path w1 :
  assoc "imageUrl" (form req) = Some url ->
  download url w = (Ok path, w1) ->
  resolve_source req w
  = (Ok (inr {| image_path := path; temp_filepath := Some path |}), w1).
Proof.
  intros E D. rewrite (resolve_source_url _ _ E).
  erewrite try_ok by (erewrite bind_ok by exact D; reflexivity).
  reflexivity.
Qed.

(** *** Uploads whose name is sanitized away *)

(** A name made of dots is sanitized to nothing, on every platform whose
    normalization leaves this ASCII name alone. *)
Lemma secure_filename_dotdot :
  nfkd_ascii ".." = ".." -> Werkzeug.secure_filename ".." = "".
Proof. intros E. unfold Werkzeug.secure_filename. now rewrite E. Qed.

Lemma join_uploads_empty : OsPath.join UPLOAD_FOLDER "" = "uploads/".
Proof. reflexivity. Qed.

Lemma upload_save_directory (f : FileStorage) (w : world) :
  upload_save f "uploads/" w
  = (Raise (IsADirectoryError "uploads/"),
     World (disk w) (trace w ++ [UploadSave "uploads/"])).
Proof. reflexivity. Qed.

(** C9. An upload-sourced request (width and height read, no [imageUrl],
    an uploaded [image]) whose file name is not empty but is sanitized to
    the empty string passes the empty-name check; the path to save to is
    then "uploads/", the uploads directory itself; saving to it raises
    [IsADirectoryError], and the exception leaves the handler: no 400
    response is made. Nothing is written. *)
Theorem sanitized_away_upload_raises
  (req : request) (w : world) (f : FileStorage) (width height : Z) :
  int_field "width" req = Ok width ->
  int_field "height" req = Ok height ->
  assoc "imageUrl" (form req) = None ->
  assoc "image" (files req) = Some f ->
  filename f <> "" ->
  Werkzeug.secure_filename (filename f) = "" ->
  String.eqb (filename f) "" = false /\
  OsPath.join UPLOAD_FOLDER (Werkzeug.secure_filename (filename f)) = "uploads/" /\
  thumbnail req w
  = (Raise (IsADirectoryError "uploads/"),
     World (disk w) (trace w ++ [UploadSave "uploads/"])).
Proof.
  intros Ew Eh Eu Ef Hne Es.
  assert (String.eqb (filename f) "" = false) as Hb
    by (destruct (String.eqb_spec (filename f) ""); [contradiction | reflexivity]).
  split; [assumption|]. split; [now rewrite Es|].
  rewrite (thumbnail_fields_ok req w width height Ew Eh).
  apply bind_raise. unfold resolve_source. rewrite Eu, Ef, Hb, Es, join_uploads_empty.
  apply bind_raise, upload_save_directory.
Qed.

(** *** A download that fails *)

(** C6. When the handler comes to an [imageUrl] (width and height are
    read before anything else) and the download fails at any step (the
    fetch, the decoding, the save to the uploads directory), the response
    is 400 with the message "Error downloading image from URL: " followed
    by the text of the exception. The handler stops there: the world is
    the one the failed download left, and no image was opened from a
    path, so no thumbnail generation was tried. *)
Theorem failed_download_is_bad_request
  (req : request) (w : world) (url : string) (width height : Z) (e : exn) (w1 : world) :
  int_field "width" req = Ok width ->
  int_field "height" req = Ok height ->
  assoc "imageUrl" (form req) = Some url ->
  download url w = (Raise e, w1) ->
  thumbnail req w
  = (Ok (Response 400
           (ErrorBody ("Error downloading image from URL: " ++ exn_str e))), w1) /\
  exists evs, trace w1 = (trace w ++ evs)%list /\ Forall not_image_open evs.
Proof.
  intros Ew Eh Eu D. split.
  - rewrite (thumbnail_fields_ok req w width height Ew Eh).
    erewrite bind_ok by (apply (resolve_source_download_fails _ _ _ _ _ Eu D)).
    reflexivity.
  - assert (adds_only not_image_open (download url)) as A
      by (apply adds_only_download; intros; intros ?; discriminate).
    specialize (A w). now rewrite D in A.
Qed.

(** *** An image that cannot be turned into a thumbnail *)

(** C7. When the request got as far as an image path (from either
    source) and the image at that path cannot be decoded, or cannot be
    resized (likewise when it cannot be encoded as JPEG),
    [generate_thumbnail] returns [None] and the response is 500 with the
    message "Failed to generate thumbnail". *)
Theorem failed_thumbnail_is_internal_error
  (req : request) (w w1 : world) (src : source) (width height : Z) :
  int_field "width" req = Ok width ->
  int_field "height" req = Ok height ->
  resolve_source req w = (Ok (inr src), w1) ->
  ((exists e w2, open_image (image_path src) w1 = (Raise e, w2)) \/
   (exists img w2 e, open_image (image_path src) w1 = (Ok img, w2) /\
                     Pil.Image_thumbnail img (width, height) = Raise e) \/
   (exists img w2 thumb e, open_image (image_path src) w1 = (Ok img, w2) /\
                           Pil.Image_thumbnail img (width, height) = Ok thumb /\
                           Image_save_jpeg thumb = Raise e)) ->
  exists w2,
    generate_thumbnail (image_path src) width height w1 = (Ok None, w2) /\
    thumbnail req w
    = (Ok (Response 500 (ErrorBody "Failed to generate thumbnail")), w2).
Proof.
  intros Ew Eh Er Hfail.
  assert (exists w2, generate_thumbnail (image_path src) width height w1 = (Ok None, w2))
    as (w2 & G).
  { destruct Hfail as [(e & w2 & E) | [(img & w2 & e & E1 & E2)
                                      | (img & w2 & thumb & e & E1 & E2 & E3)]].
    - eexists. eapply generate_thumbnail_decode_fails; eassumption.
    - eexists. eapply generate_thumbnail_resize_fails; eassumption.
    - eexists. eapply generate_thumbnail_encode_fails; eassumption. }
  exists w2. split; [assumption|].
  rewrite (thumbnail_fields_ok req w width height Ew Eh).
  erewrite bind_ok by exact Er. cbn beta iota.
  erewrite bind_ok by exact G. reflexivity.
Qed.

End Sources.

Section SourcesDemo.
Local Existing Instance Demo.platform.
Import Server Demo.

Lemma sanitized_away_upload_raises_witness :
  let req := Demo.upload_request ".." Demo.photo_data in
  String.eqb ".." "" = false /\
  OsPath.join UPLOAD_FOLDER (Werkzeug.secure_filename "..") = "uploads/" /\
  thumbnail req Demo.w0
  = (Raise (IsADirectoryError "uploads/"), World ∅ [UploadSave "uploads/"]).
Proof.
  intros req.
  apply (sanitized_away_upload_raises req Demo.w0
           {| filename := ".."; stream := Demo.photo_data |} 100 100);
    try reflexivity.
  simpl. discriminate.
Defined.

Lemma failed_download_is_bad_request_witness :
  thumbnail (Demo.url_request unreachable_url) Demo.w0
  = (Ok (Response 400
           (ErrorBody ("Error downloading image from URL: "
                         ++ exn_str unreachable_error))),
     World ∅ [Urlopen unreachable_url]) /\
  exists evs, [Urlopen unreachable_url] = ([] ++ evs)%list /\ Forall not_image_open evs.
Proof.
  apply (failed_download_is_bad_request (Demo.url_request unreachable_url) Demo.w0
           unreachable_url 100 100 unreachable_error
           (World ∅ [Urlopen unreachable_url]));
    reflexivity.
Defined.

(** Where the statement on failed downloads starts: the same
    unreachable [imageUrl] sent with a width that is no integer is never
    fetched, because [int] raises before the URL is looked at. *)
Remark malformed_width_precedes_download :
  let req := with_field "width" "abc" (Demo.url_request unreachable_url) in
  assoc "imageUrl" (form req) = Some unreachable_url /\
  download unreachable_url Demo.w0
  = (Raise unreachable_error, World ∅ [Urlopen unreachable_url]) /\
  thumbnail req Demo.w0
  = (Raise (Exn "ValueError" "invalid literal for int() with base 10: 'abc'"), Demo.w0).
Proof. intros req. repeat split. Qed.

Lemma failed_thumbnail_is_internal_error_witness :
  let w1 := snd (resolve_source text_upload Demo.w0) in
  exists w2,
    generate_thumbnail "uploads/notes.txt" 100 100 w1 = (Ok None, w2) /\
    thumbnail text_upload Demo.w0
    = (Ok (Response 500 (ErrorBody "Failed to generate thumbnail")), w2).
Proof.
  intros w1.
  apply (failed_thumbnail_is_internal_error text_upload Demo.w0 w1
           {| image_path := "uploads/notes.txt"; temp_filepath := None |} 100 100).
  - reflexivity.
  - reflexivity.
  - vm_compute. reflexivity.
  - left. eexists. eexists. vm_compute. reflexivity.
Defined.

End SourcesDemo.

(** ** The response *)

Lemma strip_prefix_app (p s : string) : strip_prefix p (p ++ s) = Some s.
Proof.
  induction p as [|a p IH]; simpl; [now destruct s|].
  now rewrite Ascii.eqb_refl.
Qed.

Lemma b64decode_b64encode (bs : bytes) :
  Base64.b64decode (Base64.b64encode bs) = Some bs.
Proof.
  unfold Base64.b64decode, Base64.b64encode.
  rewrite list_ascii_of_string_of_list_ascii.
  apply Base64Facts.decode_encode.
Qed.

Section Responses.
Context `{Platform}.
Import Server.

Lemma resolve_source_early_400 (req : request) (w w1 : world) (early : response) :
  resolve_source req w = (Ok (inl early), w1) -> status early = 400.
Proof.
  unfold resolve_source.
  destruct (assoc "imageUrl" (form req)) as [url|].
  - unfold try_except, bind, ret.
    destruct (download url w) as [[path|e] w2]; intros [= <- _]; reflexivity.
  - destruct (assoc "image" (files req)) as [f|]; [|intros [= <- _]; reflexivity].
    destruct (String.eqb (filename f) ""); [intros [= <- _]; reflexivity|].
    unfold bind, ret. destruct (upload_save f _ w) as [[[]|e] w2]; discriminate.
Qed.

(** A 200 response, taken apart. *)
Lemma thumbnail_200_inv (req : request) (w w' : world) (resp : response) :
  thumbnail req w = (Ok resp, w') -> status resp = 200 ->
  exists width height src w1 buf w2 metadata w3,
    int_field "width" req = Ok width /\
    int_field "height" req = Ok height /\
    resolve_source req w = (Ok (inr src), w1) /\
    generate_thumbnail (image_path src) width height w1 = (Ok (Some buf), w2) /\
    get_image_metadata (image_path src) w2 = (Ok metadata, w3) /\
    cleanup src w3 = (Ok tt, w') /\
    resp = Response 200
             (ThumbnailBody (data_url_prefix ++ Base64.b64encode buf) metadata).
Proof.
  intros E Hs.
  destruct (int_field "width" req) as [width|e] eqn:Ew.
  2: { rewrite (thumbnail_width_raises _ _ _ Ew) in E. discriminate. }
  destruct (int_field "height" req) as [height|e] eqn:Eh.
  2: { rewrite (thumbnail_height_raises _ _ _ _ Ew Eh) in E. discriminate. }
  rewrite (thumbnail_fields_ok req w width height Ew Eh) in E.
  destruct (run_cases (resolve_source req) w) as [(r & w1 & Er) | (e & w1 & Er)].
  2: { rewrite (bind_raise _ _ _ _ _ Er) in E. discriminate. }
  rewrite (bind_ok _ _ _ _ _ Er) in E.
  destruct r as [early|src].
  { injection E as <- <-. apply resolve_source_early_400 in Er. congruence. }
  destruct (generate_thumbnail_returns (image_path src) width height w1) as (t & w2 & G).
  rewrite (bind_ok _ _ _ _ _ G) in E.
  destruct t as [buf|].
  2: { injection E as <- <-. discriminate. }
  destruct (get_image_metadata_returns (image_path src) w2) as (metadata & w3 & Em).
  rewrite (bind_ok _ _ _ _ _ Em) in E.
  destruct (cleanup_returns src w3) as (w4 & Ec).
  rewrite (bind_ok _ _ _ _ _ Ec) in E.
  unfold lift in E. injection E as Ej <-.
  apply jsonify_thumbnail_ok_inv in Ej as ->.
  exists width, height, src, w1, buf, w2, metadata, w3. auto 10.
Qed.

(** C5. In every 200 response [thumbnailUrl] is the text
    "data:image/jpeg;base64," followed by the base64 encoding of the
    buffer [generate_thumbnail] returned for the image of the request at
    the width and height of the request;
    taking the prefix off and decoding the rest gives back exactly the
    bytes of that buffer. *)
Theorem thumbnail_url_round_trip (req : request) (w w' : world) (resp : response) :
  thumbnail req w = (Ok resp, w') ->
  status resp = 200 ->
  exists width height src w1 buf w2 metadata,
    int_field "width" req = Ok width /\
    int_field "height" req = Ok height /\
    resolve_source req w = (Ok (inr src), w1) /\
    generate_thumbnail (image_path src) width height w1 = (Ok (Some buf), w2) /\
    json resp = ThumbnailBody ("data:image/jpeg;base64," ++ Base64.b64encode buf) metadata /\
    strip_prefix "data:image/jpeg;base64,"
                 ("data:image/jpeg;base64," ++ Base64.b64encode buf)
    = Some (Base64.b64encode buf) /\
    Base64.b64decode (Base64.b64encode buf) = Some buf.
Proof.
  intros E Hs.
  destruct (thumbnail_200_inv req w w' resp E Hs)
    as (width & height & src & w1 & buf & w2 & metadata & w3
        & Ew & Eh & Er & G & _ & _ & ->).
  exists width, height, src, w1, buf, w2, metadata.
  split; [exact Ew|]. split; [exact Eh|]. split; [exact Er|]. split; [exact G|].
  split; [reflexivity|].
  split; [apply strip_prefix_app | apply b64decode_b64encode].
Qed.

(** *** Metadata *)

Lemma get_image_metadata_open_fails path w e w1 :
  open_image path w = (Raise e, w1) ->
  get_image_metadata path w
  = (Ok [], World (disk w1)
                  (trace w1 ++ [Print ("Error extracting metadata: " ++ exn_str e)])).
Proof.
  intros E. unfold get_image_metadata.
  erewrite try_raise by (erewrite bind_raise by exact E; reflexivity).
  reflexivity.
Qed.

Lemma get_image_metadata_getexif_raises path w img e w1 :
  open_image path w = (Ok img, w1) -> im_getexif img = Raise e ->
  get_image_metadata path w
  = (Ok [], World (disk w1)
                  (trace w1 ++ [Print ("Error extracting metadata: " ++ exn_str e)])).
Proof.
  intros E1 E2. unfold get_image_metadata.
  erewrite try_raise; [reflexivity|].
  erewrite bind_ok by exact E1. unfold bind, lift. now rewrite E2.
Qed.

Lemma get_image_metadata_no_table path w img w1 :
  open_image path w = (Ok img, w1) -> im_getexif img = Ok None ->
  get_image_metadata path w = (Ok [], w1).
Proof.
  intros E1 E2. unfold get_image_metadata.
  erewrite try_ok; [reflexivity|].
  erewrite bind_ok by exact E1. unfold bind, lift. now rewrite E2.
Qed.

Lemma get_image_metadata_table path w img w1 table :
  open_image path w = (Ok img, w1) -> im_getexif img = Ok (Some table) ->
  get_image_metadata path w = (Ok (collect_metadata table), w1).
Proof.
  intros E1 E2. unfold get_image_metadata.
  erewrite try_ok; [reflexivity|].
  erewrite bind_ok by exact E1. unfold bind, lift. now rewrite E2.
Qed.

Lemma dict_set_not_empty (k : tag_key) (v : exif_value) (d : dict) :
  dict_set k v d <> [].
Proof. destruct d as [|[k' v'] d]; simpl; [|destruct (tag_key_eqb k' k)]; discriminate. Qed.

Lemma fold_left_not_empty {A} (g : dict -> A -> dict) :
  (forall d a, g d a <> []) ->
  forall (l : list A) (d : dict), d <> [] -> fold_left g l d <> [].
Proof.
  intros Hg. induction l as [|a l IH]; intros d Hd; simpl; [assumption|].
  apply IH, Hg.
Qed.

(** A table with an entry gives a mapping with an entry. *)
Lemma collect_metadata_not_empty (item : Z * exif_value) (table : list (Z * exif_value)) :
  collect_metadata (item :: table) <> [].
Proof.
  unfold collect_metadata. simpl. apply fold_left_not_empty.
  - intros d [tag_id value]. apply dict_set_not_empty.
  - destruct item as [tag_id value]. discriminate.
Qed.

End Responses.

Section MetadataAndFiles.
Context `{Platform}.
Import Server.


(** *** Files left in the uploads directory *)

Lemma download_ok_file url w path w1 :
  download url w = (Ok path, w1) ->
  is_dir path = false /\ exists data, disk w1 !! path = Some data.
Proof.
  intros D. rewrite download_steps in D.
  destruct (urlopen url) as [stream|e]; [|discriminate].
  destruct (Image_open stream) as [img|e]; [|discriminate].
  match type of D with
  | context [image_save img ?p ?v] =>
      destruct (image_save img p v) as [[[]|e] w2] eqn:Es; [|discriminate]
  end.
  injection D as <- <-.
  destruct (image_save_ok_inv _ _ _ _ Es) as (Hd & data & _ & ->).
  split; [assumption|]. exists data. apply lookup_insert_eq.
Qed.

(** The temporary file of a URL-sourced request is still there after a
    500 response: the handler returns before the lines that remove it. *)
Lemma failed_thumbnail_keeps_temp_file req w url width height path w1 w2 :
  int_field "width" req = Ok width ->
  int_field "height" req = Ok height ->
  assoc "imageUrl" (form req) = Some url ->
  download url w = (Ok path, w1) ->
  generate_thumbnail path width height w1 = (Ok None, w2) ->
  thumbnail req w = (Ok (Response 500 (ErrorBody "Failed to generate thumbnail")), w2) /\
  exists data, disk w2 !! path = Some data.
Proof.
  intros Ew Eh Eu D G. split.
  - rewrite (thumbnail_fields_ok req w width height Ew Eh).
    erewrite bind_ok by (apply (resolve_source_download_ok _ _ _ _ _ Eu D)).
    cbn beta iota. cbn [image_path].
    erewrite bind_ok by exact G. reflexivity.
  - pose proof (keeps_disk_generate_thumbnail path width height w1) as K.
    rewrite G in K. simpl in K. rewrite K.
    now apply (download_ok_file url w).
Qed.

Lemma cleanup_removes path w w' :
  is_dir path = false -> is_Some (disk w !! path) ->
  cleanup {| image_path := path; temp_filepath := Some path |} w = (Ok tt, w') ->
  disk w' !! path = None.
Proof.
  intros D [data S]. unfold cleanup, try_except, os_remove, bind, emit. simpl.
  rewrite D, S. intros [= <-]. simpl. apply lookup_delete_eq.
Qed.

(** After a 200 response to a URL-sourced request the temporary file is
    gone. *)
Lemma successful_url_request_removes_temp_file req w w' resp url :
  assoc "imageUrl" (form req) = Some url ->
  thumbnail req w = (Ok resp, w') -> status resp = 200 ->
  exists path w1, download url w = (Ok path, w1) /\ disk w' !! path = None.
Proof.
  intros Eu E Hs.
  destruct (thumbnail_200_inv req w w' resp E Hs)
    as (width & height & src & w1 & buf & w2 & metadata & w3
        & _ & _ & Er & G & Em & Ec & _).
  destruct (run_cases (download url) w) as [(path & w1' & D) | (e & w1' & D)].
  2: { rewrite (resolve_source_download_fails _ _ _ _ _ Eu D) in Er. discriminate. }
  rewrite (resolve_source_download_ok _ _ _ _ _ Eu D) in Er.
  injection Er as <- <-.
  exists path, w1'. split; [exact D|].
  destruct (download_ok_file _ _ _ _ D) as (Hd & data & S).
  apply (cleanup_removes path w3 w'); [assumption| |assumption].
  pose proof (keeps_disk_generate_thumbnail path width height w1') as K1.
  pose proof (keeps_disk_get_image_metadata path w2) as K2.
  simpl in G, Em. rewrite G in K1. rewrite Em in K2. simpl in K1, K2.
  rewrite K2, K1, S. eauto.
Qed.

(** The file saved for an upload-sourced request stays: whenever the
    handler got past the save and answered, the file is on the disk with
    the uploaded bytes. *)
Lemma uploaded_file_remains req w w' resp f :
  assoc "imageUrl" (form req) = None ->
  assoc "image" (files req) = Some f ->
  thumbnail req w = (Ok resp, w') -> status resp <> 400 ->
  disk w' !! OsPath.join UPLOAD_FOLDER (Werkzeug.secure_filename (filename f))
  = Some (stream f).
Proof.
  intros Eu Ef E Hs.
  destruct (int_field "width" req) as [width|e] eqn:Ew.
  2: { rewrite (thumbnail_width_raises _ _ _ Ew) in E. discriminate. }
  destruct (int_field "height" req) as [height|e] eqn:Eh.
  2: { rewrite (thumbnail_height_raises _ _ _ _ Ew Eh) in E. discriminate. }
  rewrite (thumbnail_fields_ok req w width height Ew Eh) in E.
  set (path := OsPath.join UPLOAD_FOLDER (Werkzeug.secure_filename (filename f))) in *.
  assert (resolve_source req w
          = if String.eqb (filename f) ""
            then (Ok (inl (Response 400 (ErrorBody "No selected file"))), w)
            else if is_dir path
                 then (Raise (IsADirectoryError path),
                       World (disk w) (trace w ++ [UploadSave path]))
                 else (Ok (inr {| image_path := path; temp_filepath := None |}),
                       World (<[path := stream f]> (disk w))
                             (trace w ++ [UploadSave path]))) as Er.
  { unfold resolve_source. rewrite Eu, Ef.
    destruct (String.eqb (filename f) ""); [reflexivity|].
    fold path. unfold bind, upload_save, emit, write_file, ret. simpl.
    destruct (is_dir path); reflexivity. }
  destruct (String.eqb (filename f) "").
  { rewrite (bind_ok _ _ _ _ _ Er) in E. injection E as <- <-. now contradiction Hs. }
  destruct (is_dir path).
  { rewrite (bind_raise _ _ _ _ _ Er) in E. discriminate. }
  rewrite (bind_ok _ _ _ _ _ Er) in E. cbn beta iota in E. cbn [image_path] in E.
  match type of Er with _ = (_, ?x) => set (w1 := x) in * end.
  destruct (generate_thumbnail_returns path width height w1) as (t & w2 & G).
  pose proof (keeps_disk_generate_thumbnail path width height w1) as K1.
  rewrite G in K1. simpl in K1.
  rewrite (bind_ok _ _ _ _ _ G) in E.
  destruct t as [buf|].
  2: { injection E as <- <-. rewrite K1. apply lookup_insert_eq. }
  destruct (get_image_metadata_returns path w2) as (metadata & w3 & Em).
  pose proof (keeps_disk_get_image_metadata path w2) as K2.
  rewrite Em in K2. simpl in K2.
  rewrite (bind_ok _ _ _ _ _ Em) in E.
  unfold bind, cleanup, ret, lift in E. simpl in E.
  injection E as _ <-. rewrite K2, K1. apply lookup_insert_eq.
Qed.

End MetadataAndFiles.

Section ResponsesDemo.
Local Existing Instance Demo.platform.
Import Server Demo DemoRequests.

Lemma thumbnail_url_round_trip_witness :
  exists width height src w1 buf w2 metadata,
    int_field "width" (url_request "http://example.com/pics/photo.jpg") = Ok width /\
    int_field "height" (url_request "http://example.com/pics/photo.jpg") = Ok height /\
    resolve_source (url_request "http://example.com/pics/photo.jpg") w0
    = (Ok (inr src), w1) /\
    generate_thumbnail (image_path src) width height w1 = (Ok (Some buf), w2) /\
    json photo_response
    = ThumbnailBody ("data:image/jpeg;base64," ++ Base64.b64encode buf) metadata /\
    strip_prefix "data:image/jpeg;base64,"
                 ("data:image/jpeg;base64," ++ Base64.b64encode buf)
    = Some (Base64.b64encode buf) /\
    Base64.b64decode (Base64.b64encode buf) = Some buf.
Proof.
  apply (thumbnail_url_round_trip
           (url_request "http://example.com/pics/photo.jpg") w0
           (snd (thumbnail (url_request "http://example.com/pics/photo.jpg") w0))
           photo_response).
  - vm_compute. reflexivity.
  - reflexivity.
Defined.



(** C1, where the code departs from it. For a picture that JPEG cannot
    hold, the logo is fetched and saved as "uploads/logo.png", the JPEG
    encoder refuses its RGBA mode, the response is 500, and the temporary
    file is still on the disk when the response is returned: the lines
    that remove it come after the return. *)
Lemma rgba_logo_leaves_temp_file :
  let req := url_request "http://example.com/logo.png" in
  download "http://example.com/logo.png" w0
  = (Ok "uploads/logo.png",
     World (<["uploads/logo.png" := logo_data]> ∅)
           [Urlopen "http://example.com/logo.png"; ImageSave "uploads/logo.png"]) /\
  fst (thumbnail req w0) = Ok (Response 500 (ErrorBody "Failed to generate thumbnail")) /\
  disk (snd (thumbnail req w0)) !! "uploads/logo.png" = Some logo_data.
Proof.
  intros req. repeat split; vm_compute; reflexivity.
Qed.

(** After the 200 response for the photograph by URL the uploads
    directory is empty again, and an uploaded photograph stays. *)
Example photo_by_url_leaves_nothing :
  thumbnail (url_request "http://example.com/pics/photo.jpg") w0
  = (Ok photo_response,
     World ∅ [Urlopen "http://example.com/pics/photo.jpg";
              ImageSave "uploads/photo.jpg"; ImageOpen "uploads/photo.jpg";
              ImageOpen "uploads/photo.jpg"; OsRemove "uploads/photo.jpg"]).
Proof. vm_compute. reflexivity. Qed.

Example uploaded_photo_stays :
  let r := thumbnail (upload_request "my photo.jpg" photo_data) w0 in
  fst r = Ok photo_response /\
  disk (snd r) !! "uploads/my_photo.jpg" = Some photo_data.
Proof. split; vm_compute; reflexivity. Qed.

End ResponsesDemo.

(** ** The size of a thumbnail *)

Module PilFacts.

Import Pil.

(** *** Floor and ceiling of a quotient of integers *)

Lemma Qfloor_quotient (n d : Z) : 0 < d -> Qfloor (inject_Z n / inject_Z d) = n / d.
Proof.
  intros Hd. destruct d as [|p|p]; try lia.
  unfold Qdiv, Qinv, Qmult, inject_Z, Qfloor. simpl.
  now rewrite Z.mul_1_r.
Qed.

Lemma Qceiling_quotient (n d : Z) :
  0 < d -> Qceiling (inject_Z n / inject_Z d) = - ((- n) / d).
Proof.
  intros Hd. unfold Qceiling. f_equal.
  rewrite <- (Qfloor_quotient (- n) d Hd).
  apply Qfloor_comp. rewrite inject_Z_opp. unfold Qdiv. ring.
Qed.

Lemma scaled_width (y w h : Z) :
  0 < h ->
  (inject_Z y * (inject_Z w / inject_Z h) == inject_Z (y * w) / inject_Z h)%Q.
Proof.
  intros Hh. rewrite inject_Z_mult. unfold Qdiv. ring.
Qed.

Lemma scaled_height (x w h : Z) :
  0 < w -> 0 < h ->
  (inject_Z x / (inject_Z w / inject_Z h) == inject_Z (x * h) / inject_Z w)%Q.
Proof.
  intros Hw Hh. rewrite inject_Z_mult. field.
  split; intros E; change 0%Q with (inject_Z 0) in E;
    rewrite inject_Z_injective in E; lia.
Qed.

(** The comparison of the two ratios, on integers. *)
Lemma aspect_le_iff (w h x y : Z) :
  0 < h -> 0 < y ->
  Qle_bool (inject_Z w / inject_Z h) (inject_Z x / inject_Z y) = true <-> w * y <= x * h.
Proof.
  intros Hh Hy. rewrite Qle_bool_iff.
  destruct h as [|ph|ph]; try lia. destruct y as [|py|py]; try lia.
  unfold Qle, Qdiv, Qinv, Qmult, inject_Z. simpl.
  rewrite !Z.mul_1_r. lia.
Qed.

(** *** Rounding *)

Lemma round_aspect_cases (number : Q) (key : Z -> Q) :
  round_aspect number key = Z.max (Qfloor number) 1 \/
  round_aspect number key = Z.max (Qceiling number) 1.
Proof. unfold round_aspect. destruct (Qle_bool _ _); auto. Qed.

(** The rounded value of [n/d], whichever neighbour was taken: at least
    1, not above any integer bound of [n/d] that is at least 1, and less
    than one away from [n/d]. *)
Lemma round_quotient (n d r : Z) :
  0 < n -> 0 < d ->
  r = Z.max (n / d) 1 \/ r = Z.max (- ((- n) / d)) 1 ->
  1 <= r /\
  (forall b, 1 <= b -> n <= b * d -> r <= b) /\
  - d < r * d - n < d.
Proof.
  intros Hn Hd Hr.
  assert (d * (n / d) <= n < d * (n / d) + d) as Hf
    by (Z.to_euclidean_division_equations; nia).
  assert (d * (- ((- n) / d)) - d < n <= d * (- ((- n) / d))) as Hc
    by (Z.to_euclidean_division_equations; nia).
  split; [lia|]. split.
  - intros b Hb Hnb. destruct Hr as [-> | ->]; nia.
  - destruct Hr as [-> | ->]; nia.
Qed.

Lemma round_aspect_quotient (q : Q) (key : Z -> Q) (n d : Z) :
  0 < n -> 0 < d -> (q == inject_Z n / inject_Z d)%Q ->
  let r := round_aspect q key in
  1 <= r /\ (forall b, 1 <= b -> n <= b * d -> r <= b) /\ - d < r * d - n < d.
Proof.
  intros Hn Hd Eq r. apply round_quotient; try assumption.
  subst r. destruct (round_aspect_cases q key) as [-> | ->]; [left | right].
  - now rewrite (Qfloor_comp _ _ Eq), Qfloor_quotient.
  - now rewrite (Qceiling_comp _ _ Eq), Qceiling_quotient.
Qed.

(** *** From integers back to ratios *)

Lemma close_width (x' y w h : Z) :
  0 < h -> - h < x' * h - y * w < h ->
  (Qabs (inject_Z x' - inject_Z y * (inject_Z w / inject_Z h)) < 1)%Q.
Proof.
  intros Hh Hc. apply Qabs_Qlt_condition.
  destruct h as [|ph|ph]; try lia.
  unfold Qlt, Qminus, Qplus, Qopp, Qdiv, Qinv, Qmult, inject_Z. simpl.
  split; lia.
Qed.

Lemma close_height (x y' w h : Z) :
  0 < w -> 0 < h -> - w < y' * w - x * h < w ->
  (Qabs (inject_Z y' - inject_Z x / (inject_Z w / inject_Z h)) < 1)%Q.
Proof.
  intros Hw Hh Hc.
  assert (inject_Z y' - inject_Z x / (inject_Z w / inject_Z h)
          == inject_Z y' - inject_Z (x * h) / inject_Z w)%Q as ->
    by (now rewrite scaled_height).
  apply Qabs_Qlt_condition.
  destruct w as [|pw|pw]; try lia.
  unfold Qlt, Qminus, Qplus, Qopp, Qdiv, Qinv, Qmult, inject_Z. simpl.
  split; lia.
Qed.

End PilFacts.

Module ThumbnailFacts.

Import Pil PilFacts.

(** What the size computation gives for an image with a positive size and
    a positive request. *)
Lemma thumbnail_size_spec (img : Image) (x y : Z) :
  0 < im_width img -> 0 < im_height img -> 0 < x -> 0 < y ->
  exists size,
    thumbnail_size img (x, y) = Ok size /\
    (1 <= fst size /\ 1 <= snd size) /\
    (fst size <= x /\ snd size <= y) /\
    (fst size <= im_width img /\ snd size <= im_height img) /\
    keeps_aspect img size.
Proof.
  intros Hw Hh Hx Hy. unfold thumbnail_size, preserve_aspect_ratio.
  destruct ((im_width img <=? x) && (im_height img <=? y)) eqn:Fit.
  { apply andb_true_iff in Fit as [Fw Fh]. apply Z.leb_le in Fw, Fh.
    exists (im_size img). unfold im_size, keeps_aspect. cbn [fst snd].
    repeat split; try lia.
    left. apply close_width; lia. }
  assert (~ (im_width img <= x /\ im_height img <= y)) as Nfit.
  { intros [Fw Fh]. apply Z.leb_le in Fw, Fh. rewrite Fw, Fh in Fit. discriminate. }
  destruct (Z.eqb_spec (im_height img) 0) as [|_]; [lia|].
  destruct (Z.eqb_spec y 0) as [|_]; [lia|].
  destruct (Qle_bool _ _) eqn:Cmp.
  - apply aspect_le_iff in Cmp; [|assumption..].
    match goal with
    | |- context [round_aspect ?q ?key] =>
        destruct (round_aspect_quotient q key (y * im_width img) (im_height img))
          as (R1 & Rb & Rc);
        [nia | assumption | now apply scaled_width |];
        set (r := round_aspect q key) in *
    end.
    exists (r, y). unfold keeps_aspect. cbn [fst snd].
    split; [reflexivity|]. split; [lia|].
    split; [split; [apply Rb; lia | lia]|].
    split; [split; [apply Rb; nia | nia]|].
    left. apply close_width; assumption.
  - assert (x * im_height img < im_width img * y) as Cmp'.
    { destruct (Z.le_gt_cases (im_width img * y) (x * im_height img)) as [L|L]; [|lia].
      apply aspect_le_iff in L; [congruence | assumption..]. }
    destruct (Z.eqb_spec (im_width img) 0) as [|_]; [lia|].
    match goal with
    | |- context [round_aspect ?q ?key] =>
        destruct (round_aspect_quotient q key (x * im_height img) (im_width img))
          as (R1 & Rb & Rc);
        [nia | assumption | now apply scaled_height |];
        set (r := round_aspect q key) in *
    end.
    exists (x, r). unfold keeps_aspect. cbn [fst snd].
    split; [reflexivity|]. split; [lia|].
    split; [split; [lia | apply Rb; lia]|].
    split; [split; [nia | apply Rb; nia]|].
    right. apply close_height; assumption.
Qed.

(** An image that fits is not touched. *)
Lemma preserve_aspect_ratio_fits (img : Image) (x y : Z) :
  im_width img <= x -> im_height img <= y ->
  preserve_aspect_ratio img (x, y) = Ok None.
Proof.
  intros Fw Fh. unfold preserve_aspect_ratio.
  apply Z.leb_le in Fw, Fh. now rewrite Fw, Fh.
Qed.

Section Thumbnail.
Context `{Platform}.

Lemma Image_thumbnail_fits (img : Image) (x y : Z) :
  im_width img <= x -> im_height img <= y -> Image_thumbnail img (x, y) = Ok img.
Proof.
  intros Fw Fh. unfold Image_thumbnail.
  now rewrite preserve_aspect_ratio_fits.
Qed.

(** The image after [img.thumbnail(size)] has the computed size. *)
Lemma Image_thumbnail_size (img thumb : Image) (size : Z * Z) :
  Image_thumbnail img size = Ok thumb ->
  thumbnail_size img size = Ok (im_size thumb).
Proof.
  unfold Image_thumbnail, thumbnail_size.
  destruct (preserve_aspect_ratio img size) as [[final|]|e]; [| |discriminate].
  - destruct (size_eqb (im_size img) final) eqn:Same.
    + intros [= <-]. unfold size_eqb in Same.
      apply andb_true_iff in Same as [E1 E2]. apply Z.eqb_eq in E1, E2.
      destruct final as [fx fy]. simpl in *. unfold im_size. congruence.
    + destruct (Image_resize img final) as [data|e]; [|discriminate].
      intros [= <-]. unfold im_size. simpl. now destruct final.
  - now intros [= <-].
Qed.

(** [img.thumbnail(size)] by the computed size: the image itself when it
    has that size already, the resampled image otherwise. *)
Lemma Image_thumbnail_by_size (img : Image) (request size : Z * Z) :
  thumbnail_size img request = Ok size ->
  Image_thumbnail img request
  = if size_eqb (im_size img) size then Ok img
    else match Image_resize img size with
         | Ok data =>
             Ok {| im_width := fst size;
                   im_height := snd size;
                   im_mode := im_mode img;
                   im_data := data;
                   im_getexif := im_getexif img |}
         | Raise e => Raise e
         end.
Proof.
  unfold thumbnail_size, Image_thumbnail.
  destruct (preserve_aspect_ratio img request) as [[final|]|e]; [| |discriminate].
  - intros [= <-]. destruct (size_eqb (im_size img) final); [reflexivity|].
    now destruct (Image_resize img final).
  - intros [= <-]. unfold size_eqb. now rewrite !Z.eqb_refl.
Qed.

End Thumbnail.

End ThumbnailFacts.

Section ThumbnailClaims.
Context `{Platform}.
Import Server.

(** C2. For an image that decodes, with a positive size, and a positive
    requested width and height, the size computation does not fail and
    the size it gives is at most the requested width by at most the
    requested height, so its longest side is at most the larger of the
    two; the size has the aspect ratio of the original within rounding;
    every thumbnail [generate_thumbnail] returns is the JPEG encoding
    of an image of exactly that size; [img.thumbnail] gives the image
    itself when it has that size and the image resampled to that size
    otherwise; and a thumbnail is produced: when [img.thumbnail] gives an
    image and the JPEG encoder accepts it, [generate_thumbnail] returns
    the encoding of that image, which has exactly that size. *)
Theorem thumbnail_fits_request
  (path : string) (width height : Z) (w w1 : world) (img : Image) :
  0 < width -> 0 < height ->
  open_image path w = (Ok img, w1) ->
  0 < im_width img -> 0 < im_height img ->
  exists size,
    Pil.thumbnail_size img (width, height) = Ok size /\
    fst size <= width /\ snd size <= height /\
    Z.max (fst size) (snd size) <= Z.max width height /\
    keeps_aspect img size /\
    (forall buf w',
       generate_thumbnail path width height w = (Ok (Some buf), w') ->
       exists thumb,
         Pil.Image_thumbnail img (width, height) = Ok thumb /\
         im_size thumb = size /\
         Image_save_jpeg thumb = Ok buf) /\
    Pil.Image_thumbnail img (width, height)
    = (if Pil.size_eqb (im_size img) size then Ok img
       else match Image_resize img size with
            | Ok data =>
                Ok {| im_width := fst size;
                      im_height := snd size;
                      im_mode := im_mode img;
                      im_data := data;
                      im_getexif := im_getexif img |}
            | Raise e => Raise e
            end) /\
    (forall thumb buf,
       Pil.Image_thumbnail img (width, height) = Ok thumb ->
       Image_save_jpeg thumb = Ok buf ->
       im_size thumb = size /\
       generate_thumbnail path width height w = (Ok (Some buf), w1)).
Proof.
  intros Hx Hy Eo Hw Hh.
  destruct (ThumbnailFacts.thumbnail_size_spec img width height Hw Hh Hx Hy)
    as (size & Es & _ & (Bx & By) & _ & Ha).
  exists size.
  split; [assumption|]. split; [assumption|]. split; [assumption|].
  split; [lia|]. split; [assumption|]. split; [|split].
  - intros buf w' G.
    destruct (generate_thumbnail_some_inv _ _ _ _ _ _ G) as (img0 & thumb & Eo' & Et & Ej).
    rewrite Eo in Eo'. injection Eo' as <- <-.
    exists thumb. repeat split; try assumption.
    apply ThumbnailFacts.Image_thumbnail_size in Et. congruence.
  - now apply ThumbnailFacts.Image_thumbnail_by_size.
  - intros thumb buf Et Ej. split.
    + apply ThumbnailFacts.Image_thumbnail_size in Et. congruence.
    + now apply (generate_thumbnail_succeeds _ _ _ _ img thumb).
Qed.

(** C10. The resize never enlarges. An image whose width and height are
    at most the requested ones is left exactly as it is, so the thumbnail
    returned is the JPEG encoding of the original image, at its original
    size; and for any positive request the size of the thumbnail is at
    most the size of the original in both dimensions. *)
Theorem thumbnail_never_enlarges
  (path : string) (width height : Z) (w w1 : world) (img : Image) :
  open_image path w = (Ok img, w1) ->
  0 < im_width img -> 0 < im_height img ->
  (im_width img <= width -> im_height img <= height ->
     Pil.thumbnail_size img (width, height) = Ok (im_size img) /\
     Pil.Image_thumbnail img (width, height) = Ok img /\
     forall buf w',
       generate_thumbnail path width height w = (Ok (Some buf), w') ->
       Image_save_jpeg img = Ok buf) /\
  (0 < width -> 0 < height ->
     exists size,
       Pil.thumbnail_size img (width, height) = Ok size /\
       fst size <= im_width img /\ snd size <= im_height img).
Proof.
  intros Eo Hw Hh. split.
  - intros Fw Fh.
    pose proof (ThumbnailFacts.Image_thumbnail_fits img width height Fw Fh) as Et.
    split; [|split; [assumption|]].
    + unfold Pil.thumbnail_size.
      now rewrite ThumbnailFacts.preserve_aspect_ratio_fits.
    + intros buf w' G.
      destruct (generate_thumbnail_some_inv _ _ _ _ _ _ G)
        as (img0 & thumb & Eo' & Et' & Ej).
      rewrite Eo in Eo'. injection Eo' as <- <-. congruence.
  - intros Hx Hy.
    destruct (ThumbnailFacts.thumbnail_size_spec img width height Hw Hh Hx Hy)
      as (size & Es & _ & _ & (Bx & By) & _).
    exists size. auto.
Qed.

End ThumbnailClaims.

Section ThumbnailDemo.
Local Existing Instance Demo.platform.
Import Server Demo.

Example photo_thumbnail_size : Pil.thumbnail_size photo (100, 100) = Ok (100, 75).
Proof. vm_compute. reflexivity. Qed.

Example photo_thumbnail_tall : Pil.thumbnail_size photo (1000, 30) = Ok (40, 30).
Proof. vm_compute. reflexivity. Qed.

Example logo_thumbnail_fits : Pil.thumbnail_size logo (100, 100) = Ok (64, 64).
Proof. vm_compute. reflexivity. Qed.

Lemma thumbnail_fits_request_witness :
  Pil.thumbnail_size photo (100, 100) = Ok (100, 75) /\
  keeps_aspect photo (100, 75) /\
  exists thumb,
    Pil.Image_thumbnail photo (100, 100) = Ok thumb /\
    im_size thumb = (100, 75) /\
    generate_thumbnail "uploads/photo.jpg" 100 100 w_photo
    = (Ok (Some (xff :: xd8 :: photo_data)),
       World (disk w_photo) [ImageOpen "uploads/photo.jpg"]).
Proof.
  destruct (thumbnail_fits_request "uploads/photo.jpg" 100 100 w_photo
              (World (disk w_photo) [ImageOpen "uploads/photo.jpg"]) photo)
    as (size & Es & _ & _ & _ & Ha & _ & _ & Hmade);
    [lia | lia | vm_compute; reflexivity | simpl; lia | simpl; lia |].
  assert (size = (100, 75)) as ->.
  { vm_compute in Es. now injection Es as <-. }
  split; [exact Es|]. split; [exact Ha|].
  destruct (Pil.Image_thumbnail photo (100, 100)) as [thumb|e] eqn:Et;
    [|vm_compute in Et; discriminate].
  assert (Image_save_jpeg thumb = Ok (xff :: xd8 :: photo_data)) as Ej.
  { vm_compute in Et. injection Et as <-. vm_compute. reflexivity. }
  destruct (Hmade thumb (xff :: xd8 :: photo_data) eq_refl Ej) as (Esz & G).
  exists thumb. split; [reflexivity|]. split; [exact Esz | exact G].
Defined.

Lemma thumbnail_never_enlarges_witness :
  Pil.thumbnail_size photo (640, 480) = Ok (400, 300) /\
  Pil.Image_thumbnail photo (640, 480) = Ok photo /\
  exists size,
    Pil.thumbnail_size photo (100, 100) = Ok size /\
    fst size <= 400 /\ snd size <= 300.
Proof.
  destruct (thumbnail_never_enlarges "uploads/photo.jpg" 640 480 w_photo
              (World (disk w_photo) [ImageOpen "uploads/photo.jpg"]) photo)
    as [Hfit _].
  { vm_compute. reflexivity. }
  { simpl. lia. }
  { simpl. lia. }
  destruct (thumbnail_never_enlarges "uploads/photo.jpg" 100 100 w_photo
              (World (disk w_photo) [ImageOpen "uploads/photo.jpg"]) photo)
    as [_ Hsmall].
  { vm_compute. reflexivity. }
  { simpl. lia. }
  { simpl. lia. }
  destruct Hfit as (E1 & E2 & _); [simpl; lia | simpl; lia |].
  split; [exact E1|]. split; [exact E2|].
  apply Hsmall; lia.
Defined.

End ThumbnailDemo.

(** ** Every way the handler ends *)

Section Outcomes.
Context `{Platform}.
Import Server.

Lemma resolve_source_early_inv (req : request) (w w1 : world) (early : response) :
  resolve_source req w = (Ok (inl early), w1) ->
  status early = 400 /\ exists msg, json early = ErrorBody msg.
Proof.
  unfold resolve_source.
  destruct (assoc "imageUrl" (form req)) as [url|].
  - unfold try_except, bind, ret.
    destruct (download url w) as [[path|e] w2]; intros [= <- _]; simpl; eauto.
  - destruct (assoc "image" (files req)) as [f|]; [|intros [= <- _]; simpl; eauto].
    destruct (String.eqb (filename f) ""); [intros [= <- _]; simpl; eauto|].
    unfold bind, ret. destruct (upload_save f _ w) as [[[]|e] w2]; discriminate.
Qed.

(** A response is made at one of three places: in the branch statement
    (lines 105, 109, 114), after a failed thumbnail (line 118), or at the
    end (line 134). *)
Lemma thumbnail_ok_inv (req : request) (w w' : world) (resp : response) :
  thumbnail req w = (Ok resp, w') ->
  exists width height,
    int_field "width" req = Ok width /\
    int_field "height" req = Ok height /\
    (resolve_source req w = (Ok (inl resp), w') \/
     (exists src w1,
        resolve_source req w = (Ok (inr src), w1) /\
        generate_thumbnail (image_path src) width height w1 = (Ok None, w') /\
        resp = Response 500 (ErrorBody "Failed to generate thumbnail")) \/
     (exists src w1 buf w2 metadata w3,
        resolve_source req w = (Ok (inr src), w1) /\
        generate_thumbnail (image_path src) width height w1 = (Ok (Some buf), w2) /\
        get_image_metadata (image_path src) w2 = (Ok metadata, w3) /\
        cleanup src w3 = (Ok tt, w') /\
        resp = Response 200
                 (ThumbnailBody (data_url_prefix ++ Base64.b64encode buf) metadata))).
Proof.
  intros E.
  destruct (int_field "width" req) as [width|e] eqn:Ew.
  2: { rewrite (thumbnail_width_raises _ _ _ Ew) in E. discriminate. }
  destruct (int_field "height" req) as [height|e] eqn:Eh.
  2: { rewrite (thumbnail_height_raises _ _ _ _ Ew Eh) in E. discriminate. }
  exists width, height. split; [reflexivity|]. split; [reflexivity|].
  rewrite (thumbnail_fields_ok req w width height Ew Eh) in E.
  destruct (run_cases (resolve_source req) w) as [(r & w1 & Er) | (e & w1 & Er)].
  2: { rewrite (bind_raise _ _ _ _ _ Er) in E. discriminate. }
  rewrite (bind_ok _ _ _ _ _ Er) in E.
  destruct r as [early|src].
  { injection E as <- <-. now left. }
  destruct (generate_thumbnail_returns (image_path src) width height w1) as (t & w2 & G).
  rewrite (bind_ok _ _ _ _ _ G) in E.
  destruct t as [buf|].
  2: { injection E as <- <-. right. left. eauto. }
  destruct (get_image_metadata_returns (image_path src) w2) as (metadata & w3 & Em).
  rewrite (bind_ok _ _ _ _ _ Em) in E.
  destruct (cleanup_returns src w3) as (w4 & Ec).
  rewrite (bind_ok _ _ _ _ _ Ec) in E.
  unfold lift in E. injection E as Ej <-.
  apply jsonify_thumbnail_ok_inv in Ej as ->.
  right. right. exists src, w1, buf, w2, metadata, w3. auto.
Qed.

(** Line 114: neither an [imageUrl] nor an uploaded [image]. *)
Lemma missing_source_is_bad_request (req : request) (w : world) (width height : Z) :
  int_field "width" req = Ok width ->
  int_field "height" req = Ok height ->
  assoc "imageUrl" (form req) = None ->
  assoc "image" (files req) = None ->
  thumbnail req w
  = (Ok (Response 400 (ErrorBody "Missing imageUrl or image file")), w).
Proof.
  intros Ew Eh Eu Ef. rewrite (thumbnail_fields_ok req w width height Ew Eh).
  unfold resolve_source. now rewrite Eu, Ef.
Qed.

(** Line 109: an uploaded [image] without a file name. *)
Lemma empty_filename_is_bad_request
  (req : request) (w : world) (f : FileStorage) (width height : Z) :
  int_field "width" req = Ok width ->
  int_field "height" req = Ok height ->
  assoc "imageUrl" (form req) = None ->
  assoc "image" (files req) = Some f ->
  filename f = "" ->
  thumbnail req w = (Ok (Response 400 (ErrorBody "No selected file")), w).
Proof.
  intros Ew Eh Eu Ef En. rewrite (thumbnail_fields_ok req w width height Ew Eh).
  unfold resolve_source. now rewrite Eu, Ef, En.
Qed.

(** X1. For a request without [imageUrl] whose width and height are
    read, the 400 responses are exactly these two, and both leave the
    world as it was (nothing fetched, written or printed): "Missing
    imageUrl or image file" when there is no uploaded [image], and "No
    selected file" when the uploaded [image] has the empty file name,
    whatever bytes it holds. An upload with any other file name is never
    answered 400. *)
Theorem bad_request_without_url (req : request) (w : world) (width height : Z) :
  int_field "width" req = Ok width ->
  int_field "height" req = Ok height ->
  assoc "imageUrl" (form req) = None ->
  (assoc "image" (files req) = None ->
     thumbnail req w
     = (Ok (Response 400 (ErrorBody "Missing imageUrl or image file")), w)) /\
  (forall f, assoc "image" (files req) = Some f -> filename f = "" ->
     thumbnail req w = (Ok (Response 400 (ErrorBody "No selected file")), w)) /\
  (forall f resp w', assoc "image" (files req) = Some f -> filename f <> "" ->
     thumbnail req w = (Ok resp, w') -> status resp <> 400).
Proof.
  intros Ew Eh Eu. split; [|split].
  - now apply (missing_source_is_bad_request req w width height).
  - intros f. now apply (empty_filename_is_bad_request req w f width height).
  - intros f resp w' Ef Hn E.
    destruct (thumbnail_ok_inv req w w' resp E)
      as (_ & _ & _ & _ & [Er | [(src & w1 & _ & _ & ->)
                                | (src & w1 & buf & w2 & md & w3 & _ & _ & _ & _ & ->)]]);
      [|simpl; lia..].
    exfalso. unfold resolve_source in Er. rewrite Eu, Ef in Er.
    destruct (String.eqb_spec (filename f) ""); [contradiction|].
    unfold bind, ret in Er.
    destruct (upload_save f _ w) as [[[]|e] w2]; discriminate.
Qed.

(** X2. Whatever the request, a response the handler returns has one of
    three shapes: status 200 with a [thumbnailUrl] that starts with
    "data:image/jpeg;base64," and a metadata mapping; status 400 with an
    error message; or status 500 with the error message "Failed to
    generate thumbnail". *)
Theorem response_shapes (req : request) (w w' : world) (resp : response) :
  thumbnail req w = (Ok resp, w') ->
  (status resp = 200 /\
   exists payload metadata,
     json resp = ThumbnailBody ("data:image/jpeg;base64," ++ payload) metadata) \/
  (status resp = 400 /\ exists msg, json resp = ErrorBody msg) \/
  (status resp = 500 /\ json resp = ErrorBody "Failed to generate thumbnail").
Proof.
  intros E.
  destruct (thumbnail_ok_inv req w w' resp E)
    as (width & height & _ & _ & [Er | [(src & w1 & _ & _ & ->)
                                       | (src & w1 & buf & w2 & md & w3 & _ & _ & _ & _ & ->)]]).
  - right. left. eapply resolve_source_early_inv, Er.
  - right. right. auto.
  - left. simpl. eauto.
Qed.

End Outcomes.

Section OutcomesDemo.
Local Existing Instance Demo.platform.
Import Server Demo DemoRequests.

Lemma bad_request_without_url_witness :
  thumbnail empty_request w0
  = (Ok (Response 400 (ErrorBody "Missing imageUrl or image file")), w0) /\
  thumbnail unnamed_upload w0 = (Ok (Response 400 (ErrorBody "No selected file")), w0) /\
  status photo_response <> 400.
Proof.
  destruct (bad_request_without_url empty_request w0 100 100) as (Hmissing & _);
    [reflexivity..|].
  destruct (bad_request_without_url unnamed_upload w0 100 100) as (_ & Hempty & _);
    [reflexivity..|].
  destruct (bad_request_without_url photo_upload w0 100 100) as (_ & _ & Hnamed);
    [reflexivity..|].
  split; [apply Hmissing; reflexivity|].
  split; [apply (Hempty {| filename := ""; stream := photo_data |}); reflexivity|].
  apply (Hnamed {| filename := "my photo.jpg"; stream := photo_data |}
                photo_response (snd (thumbnail photo_upload w0))).
  - reflexivity.
  - simpl. discriminate.
  - vm_compute. reflexivity.
Defined.

Lemma response_shapes_witness :
  (status photo_response = 200 /\
   exists payload metadata,
     json photo_response
     = ThumbnailBody ("data:image/jpeg;base64," ++ payload) metadata) \/
  (status photo_response = 400 /\ exists msg, json photo_response = ErrorBody msg) \/
  (status photo_response = 500 /\
   json photo_response = ErrorBody "Failed to generate thumbnail").
Proof.
  apply (response_shapes photo_by_url w0 (snd (thumbnail photo_by_url w0)) photo_response).
  vm_compute. reflexivity.
Defined.

End OutcomesDemo.

(** ** What a request does to the uploads directory *)

Lemma touches_only_keeps {A} (path : string) (m : M A) :
  keeps_disk m -> touches_only path m.
Proof. intros K w p _. now rewrite K. Qed.

Lemma touches_only_bind_post {A B} (path : string) (Q : A -> Prop)
  (m : M A) (k : A -> M B) :
  (forall w a w1, m w = (Ok a, w1) -> Q a) ->
  touches_only path m ->
  (forall a, Q a -> touches_only path (k a)) ->
  touches_only path (bind m k).
Proof.
  intros HQ Hm Hk w p Hp. unfold bind.
  specialize (Hm w p Hp). specialize (HQ w).
  destruct (m w) as [[a|e] w1]; simpl in *; [|assumption].
  rewrite (Hk a (HQ a w1 eq_refl) w1 p Hp). assumption.
Qed.

Lemma touches_only_bind {A B} (path : string) (m : M A) (k : A -> M B) :
  touches_only path m -> (forall a, touches_only path (k a)) ->
  touches_only path (bind m k).
Proof.
  intros Hm Hk. apply (touches_only_bind_post path (fun _ => True)); auto.
Qed.

Section Disk.
Context `{Platform}.
Import Server.

(** A download that succeeds wrote the target file, and only it. *)
Lemma download_ok_inv (url : string) (w w1 : world) (path : string) :
  download url w = (Ok path, w1) ->
  path = OsPath.join UPLOAD_FOLDER (Werkzeug.secure_filename (OsPath.basename url)) /\
  is_dir path = false /\
  exists data, disk w1 = <[path := data]> (disk w).
Proof.
  intros D. rewrite download_steps in D.
  destruct (urlopen url) as [stream|e]; [|discriminate].
  destruct (Image_open stream) as [img|e]; [|discriminate].
  match type of D with
  | context [image_save img ?p ?v] =>
      destruct (image_save img p v) as [[[]|e] w2] eqn:Es; [|discriminate]
  end.
  injection D as <- <-.
  destruct (image_save_ok_inv _ _ _ _ Es) as (Hd & data & _ & ->).
  split; [reflexivity|]. split; [assumption|]. exists data. reflexivity.
Qed.

(** A download, however it ends, changes no file but the target. *)
Lemma download_other_files (url : string) (w : world) (p : string) :
  p <> OsPath.join UPLOAD_FOLDER (Werkzeug.secure_filename (OsPath.basename url)) ->
  disk (snd (download url w)) !! p = disk w !! p.
Proof.
  intros Hp. rewrite download_steps.
  destruct (urlopen url) as [stream|e]; [|reflexivity].
  destruct (Image_open stream) as [img|e]; [|reflexivity].
  match goal with
  | |- context [image_save img ?q ?v] =>
      pose proof (image_save_other_files img q v p Hp) as K;
      destruct (image_save img q v) as [[[]|e] w2]
  end; exact K.
Qed.

Lemma resolve_source_url_inv req url w src w1 :
  assoc "imageUrl" (form req) = Some url ->
  resolve_source req w = (Ok (inr src), w1) ->
  src = {| image_path := target_path req; temp_filepath := Some (target_path req) |} /\
  is_dir (target_path req) = false /\
  exists data, disk w1 = <[target_path req := data]> (disk w).
Proof.
  intros Eu Er. unfold target_path. rewrite Eu.
  destruct (run_cases (download url) w) as [(path & w1' & D) | (e & w1' & D)].
  2: { rewrite (resolve_source_download_fails _ _ _ _ _ Eu D) in Er. discriminate. }
  rewrite (resolve_source_download_ok _ _ _ _ _ Eu D) in Er.
  injection Er as <- <-.
  destruct (download_ok_inv _ _ _ _ D) as (-> & Hd & data & Ed). eauto.
Qed.

Lemma resolve_source_upload_inv req f w src w1 :
  assoc "imageUrl" (form req) = None ->
  assoc "image" (files req) = Some f ->
  resolve_source req w = (Ok (inr src), w1) ->
  src = {| image_path := target_path req; temp_filepath := None |} /\
  is_dir (target_path req) = false /\
  disk w1 = <[target_path req := stream f]> (disk w).
Proof.
  intros Eu Ef. unfold target_path, resolve_source. rewrite Eu, Ef.
  destruct (String.eqb (filename f) ""); [discriminate|].
  unfold bind, upload_save, emit, write_file, ret. simpl.
  destruct (is_dir _) eqn:D; [discriminate|].
  intros [= <- <-]. auto.
Qed.

(** The source the branch statement hands on names the target path. *)
Lemma resolve_source_names_target req w src w1 :
  resolve_source req w = (Ok (inr src), w1) ->
  image_path src = target_path req /\
  (temp_filepath src = None \/ temp_filepath src = Some (target_path req)).
Proof.
  intros Er.
  destruct (assoc "imageUrl" (form req)) as [url|] eqn:Eu.
  - destruct (resolve_source_url_inv _ _ _ _ _ Eu Er) as (-> & _). auto.
  - destruct (assoc "image" (files req)) as [f|] eqn:Ef.
    + destruct (resolve_source_upload_inv _ _ _ _ _ Eu Ef Er) as (-> & _). auto.
    + unfold resolve_source in Er. rewrite Eu, Ef in Er. discriminate.
Qed.

Lemma touches_only_resolve_source (req : request) :
  touches_only (target_path req) (resolve_source req).
Proof.
  intros w p Hp.
  destruct (assoc "imageUrl" (form req)) as [url|] eqn:Eu.
  - destruct (run_cases (download url) w) as [(path & w1 & D) | (e & w1 & D)].
    + rewrite (resolve_source_download_ok _ _ _ _ _ Eu D). simpl.
      destruct (download_ok_inv _ _ _ _ D) as (Ep & _ & data & ->).
      apply lookup_insert_ne. unfold target_path in Hp. rewrite Eu in Hp. congruence.
    + rewrite (resolve_source_download_fails _ _ _ _ _ Eu D). simpl.
      assert (p <> OsPath.join UPLOAD_FOLDER
                     (Werkzeug.secure_filename (OsPath.basename url))) as Hp'
        by (unfold target_path in Hp; now rewrite Eu in Hp).
      pose proof (download_other_files url w p Hp') as K.
      now rewrite D in K.
  - unfold resolve_source. rewrite Eu.
    destruct (assoc "image" (files req)) as [f|] eqn:Ef; [|reflexivity].
    destruct (String.eqb (filename f) ""); [reflexivity|].
    unfold bind, upload_save, emit, write_file, ret. simpl.
    destruct (is_dir _); simpl; [reflexivity|].
    apply lookup_insert_ne. unfold target_path in Hp. rewrite Eu, Ef in Hp. congruence.
Qed.

Lemma touches_only_cleanup (path : string) (src : source) :
  temp_filepath src = None \/ temp_filepath src = Some path ->
  touches_only path (cleanup src).
Proof.
  intros [E | E] w p Hp; unfold cleanup; rewrite E; [reflexivity|].
  unfold try_except, os_remove, bind, emit, print. simpl.
  destruct (is_dir path); [reflexivity|].
  destruct (disk w !! path); simpl; [|reflexivity].
  apply lookup_delete_ne. congruence.
Qed.

Lemma touches_only_thumbnail (req : request) :
  touches_only (target_path req) (thumbnail req).
Proof.
  unfold thumbnail.
  apply touches_only_bind; [apply touches_only_keeps, keeps_disk_lift | intros width].
  apply touches_only_bind; [apply touches_only_keeps, keeps_disk_lift | intros height].
  apply (touches_only_bind_post _
           (fun r => match r with
                     | inl _ => True
                     | inr src =>
                         temp_filepath src = None \/
                         temp_filepath src = Some (target_path req)
                     end)).
  - intros w [early|src] w1 Er; [exact I|].
    now apply (resolve_source_names_target req w src w1).
  - apply touches_only_resolve_source.
  - intros [early|src] Hsrc; [apply touches_only_keeps, keeps_disk_ret|].
    apply touches_only_bind;
      [apply touches_only_keeps, keeps_disk_generate_thumbnail | intros [buf|]].
    + apply touches_only_bind;
        [apply touches_only_keeps, keeps_disk_get_image_metadata | intros metadata].
      apply touches_only_bind; [now apply touches_only_cleanup | intros _].
      apply touches_only_keeps, keeps_disk_lift.
    + apply touches_only_keeps, keeps_disk_ret.
Qed.

(** X3. A request changes at most one file: whatever the request and
    however it ends (a response or an exception), every path other than
    the one made from the base name of the [imageUrl], or else from the
    name of the uploaded [image], holds after the request what it held
    before. *)
Theorem other_files_untouched (req : request) (w : world) (p : string) :
  p <> target_path req ->
  disk (snd (thumbnail req w)) !! p = disk w !! p.
Proof. apply touches_only_thumbnail. Qed.

(** X4. When an upload-sourced request (no [imageUrl], an uploaded
    [image]) gets a response other than 400, the uploads directory is
    the one before the request with the uploaded bytes stored under the
    sanitized name: the upload is kept after a 200 and after a 500 alike,
    and a file that had this name before is overwritten. *)
Theorem upload_is_stored (req : request) (w w' : world) (resp : response) (f : FileStorage) :
  assoc "imageUrl" (form req) = None ->
  assoc "image" (files req) = Some f ->
  thumbnail req w = (Ok resp, w') ->
  status resp <> 400 ->
  disk w'
  = <[OsPath.join UPLOAD_FOLDER (Werkzeug.secure_filename (filename f)) := stream f]>
      (disk w).
Proof.
  intros Eu Ef E Hs.
  assert (target_path req
          = OsPath.join UPLOAD_FOLDER (Werkzeug.secure_filename (filename f))) as <-
    by (unfold target_path; now rewrite Eu, Ef).
  destruct (thumbnail_ok_inv req w w' resp E)
    as (width & height & _ & _ & [Er | [(src & w1 & Er & G & _)
                                       | (src & w1 & buf & w2 & md & w3
                                          & Er & G & Em & Ec & _)]]).
  - apply resolve_source_early_inv in Er as [S _]. contradiction.
  - destruct (resolve_source_upload_inv _ _ _ _ _ Eu Ef Er) as (_ & _ & <-).
    pose proof (keeps_disk_generate_thumbnail (image_path src) width height w1) as K.
    now rewrite G in K.
  - destruct (resolve_source_upload_inv _ _ _ _ _ Eu Ef Er) as (-> & _ & <-).
    pose proof (keeps_disk_generate_thumbnail (target_path req) width height w1) as K1.
    pose proof (keeps_disk_get_image_metadata (target_path req) w2) as K2.
    simpl in G, Em. rewrite G in K1. rewrite Em in K2. simpl in K1, K2.
    unfold cleanup, ret in Ec. simpl in Ec. injection Ec as <-. congruence.
Qed.

(** X5. After a 200 response to a URL-sourced request the uploads
    directory is the one before the request without the file at the
    temporary path: the temporary file is gone, every other file is as it
    was, and a file that was at the temporary path before the request
    (an earlier upload of the same name) is gone as well. *)
Theorem url_success_removes_target
  (req : request) (w w' : world) (resp : response) (url : string) :
  assoc "imageUrl" (form req) = Some url ->
  thumbnail req w = (Ok resp, w') ->
  status resp = 200 ->
  disk w'
  = delete (OsPath.join UPLOAD_FOLDER (Werkzeug.secure_filename (OsPath.basename url)))
           (disk w).
Proof.
  intros Eu E Hs.
  assert (target_path req
          = OsPath.join UPLOAD_FOLDER (Werkzeug.secure_filename (OsPath.basename url)))
    as <- by (unfold target_path; now rewrite Eu).
  destruct (thumbnail_200_inv req w w' resp E Hs)
    as (width & height & src & w1 & buf & w2 & md & w3 & _ & _ & Er & G & Em & Ec & _).
  destruct (resolve_source_url_inv _ _ _ _ _ Eu Er) as (-> & Hd & data & Ed).
  pose proof (keeps_disk_generate_thumbnail (target_path req) width height w1) as K1.
  pose proof (keeps_disk_get_image_metadata (target_path req) w2) as K2.
  simpl in G, Em. rewrite G in K1. rewrite Em in K2. simpl in K1, K2.
  assert (disk w3 !! target_path req = Some data) as S
    by (rewrite K2, K1, Ed; apply lookup_insert_eq).
  unfold cleanup, try_except, os_remove, bind, emit in Ec. simpl in Ec.
  rewrite Hd, S in Ec. injection Ec as <-. simpl.
  rewrite K2, K1, Ed. apply delete_insert_eq.
Qed.

End Disk.

Section DiskDemo.
Local Existing Instance Demo.platform.
Import Server Demo DemoRequests.

Lemma other_files_untouched_witness :
  disk (snd (thumbnail photo_upload w_earlier)) !! "uploads/photo.jpg"
  = disk w_earlier !! "uploads/photo.jpg".
Proof.
  apply (other_files_untouched photo_upload w_earlier "uploads/photo.jpg").
  vm_compute. discriminate.
Defined.

Lemma upload_is_stored_witness :
  disk (snd (thumbnail photo_upload w_earlier))
  = <[OsPath.join UPLOAD_FOLDER (Werkzeug.secure_filename "my photo.jpg") := photo_data]>
      (disk w_earlier).
Proof.
  apply (upload_is_stored photo_upload w_earlier (snd (thumbnail photo_upload w_earlier))
           photo_response {| filename := "my photo.jpg"; stream := photo_data |}).
  - reflexivity.
  - reflexivity.
  - vm_compute. reflexivity.
  - simpl. lia.
Defined.

Lemma url_success_removes_target_witness :
  disk (snd (thumbnail photo_by_url w_earlier))
  = delete (OsPath.join UPLOAD_FOLDER
              (Werkzeug.secure_filename
                 (OsPath.basename "http://example.com/pics/photo.jpg")))
           (disk w_earlier).
Proof.
  apply (url_success_removes_target photo_by_url w_earlier
           (snd (thumbnail photo_by_url w_earlier)) photo_response
           "http://example.com/pics/photo.jpg").
  - reflexivity.
  - vm_compute. reflexivity.
  - reflexivity.
Defined.

(** The earlier upload called photo.jpg does not survive a request for
    a URL with the same base name. *)
Example earlier_upload_is_lost :
  disk w_earlier !! "uploads/photo.jpg" = Some logo_data /\
  disk (snd (thumbnail photo_by_url w_earlier)) !! "uploads/photo.jpg" = None.
Proof. split; vm_compute; reflexivity. Qed.

(** A save that breaks has emptied the file that was there: the logo
    served as photo.jpg cannot be written as JPEG, the answer is 400,
    and the earlier upload called photo.jpg is left with no content.
    When nothing was at the path, nothing is left there. *)
Example broken_save_empties_earlier_upload :
  thumbnail logo_as_jpg w_earlier
  = (Ok (Response 400
           (ErrorBody "Error downloading image from URL: cannot write mode RGBA as JPEG")),
     World (<["uploads/photo.jpg" := []]> ∅)
           [Urlopen "http://example.com/icons/photo.jpg"; ImageSave "uploads/photo.jpg"]) /\
  disk (snd (thumbnail logo_as_jpg w0)) = ∅.
Proof. split; vm_compute; reflexivity. Qed.

End DiskDemo.

(** ** The two helpers *)

Lemma tag_key_eqb_eq (a b : tag_key) : tag_key_eqb a b = true <-> a = b.
Proof.
  destruct a as [s|m], b as [t|n]; simpl; split; try discriminate.
  - intros E. apply String.eqb_eq in E. now subst.
  - intros [= ->]. apply String.eqb_refl.
  - intros E. apply Z.eqb_eq in E. now subst.
  - intros [= ->]. apply Z.eqb_refl.
Qed.

(** Setting a key the mapping does not have appends it. *)
Lemma dict_set_fresh (k : tag_key) (v : exif_value) (d : dict) :
  ~ In k (map fst d) -> dict_set k v d = (d ++ [(k, v)])%list.
Proof.
  induction d as [|[k' v'] d IH]; simpl; intros Hk; [reflexivity|].
  destruct (tag_key_eqb k' k) eqn:E.
  - apply tag_key_eqb_eq in E. tauto.
  - rewrite IH by tauto. reflexivity.
Qed.

Lemma dict_set_values (P : exif_value -> Prop) (k : tag_key) (v : exif_value) (d : dict) :
  P v -> Forall (fun kv => P (snd kv)) d -> Forall (fun kv => P (snd kv)) (dict_set k v d).
Proof.
  intros Hv. induction 1 as [|[k' v'] d Hkv Hd IH]; simpl.
  - repeat constructor. exact Hv.
  - destruct (tag_key_eqb k' k); constructor; auto.
Qed.

Section Helpers.
Context `{Platform}.
Import Server.

Lemma decode_value_not_bytes (value : exif_value) (b : bytes) :
  decode_value value <> VBytes b.
Proof.
  destruct value as [b'|s|n|p]; simpl; try discriminate.
  destruct (bytes_decode b'); discriminate.
Qed.

Lemma collect_metadata_values (P : exif_value -> Prop) (table : list (Z * exif_value)) :
  (forall value, P (decode_value value)) ->
  Forall (fun kv => P (snd kv)) (collect_metadata table).
Proof.
  intros HP. unfold collect_metadata.
  assert (forall d, Forall (fun kv => P (snd kv)) d ->
                    Forall (fun kv => P (snd kv))
                      (fold_left
                         (fun metadata '(tag_id, value) =>
                            dict_set (tag_of tag_id) (decode_value value) metadata)
                         table d)) as F.
  { induction table as [|[tag_id value] table IH]; intros d Hd; simpl; [assumption|].
    apply IH, dict_set_values; auto. }
  apply F. constructor.
Qed.

Lemma collect_metadata_translate (table : list (Z * exif_value)) :
  List.NoDup (map fst (translate table)) -> collect_metadata table = translate table.
Proof.
  unfold collect_metadata.
  assert (forall d,
             List.NoDup (map fst d ++ map fst (translate table)) ->
             fold_left
               (fun metadata '(tag_id, value) =>
                  dict_set (tag_of tag_id) (decode_value value) metadata)
               table d
             = (d ++ translate table)%list) as F.
  { induction table as [|[tag_id value] table IH]; intros d Hd; simpl.
    - now rewrite app_nil_r.
    - simpl in Hd.
      assert (~ In (tag_of tag_id) (map fst d)) as Hfresh.
      { intros Hin. apply List.NoDup_remove_2 in Hd. apply Hd.
        apply in_or_app. now left. }
      rewrite dict_set_fresh by assumption.
      rewrite IH.
      + now rewrite <- app_assoc.
      + rewrite map_app. simpl. rewrite <- app_assoc. simpl.
        apply List.NoDup_remove_1 in Hd as Hd'.
        apply List.NoDup_remove_2 in Hd as Hd2.
        clear IH. revert Hd' Hd2 Hfresh. generalize (map fst (translate table)).
        generalize (map fst d). intros l1 l2.
        induction l1 as [|x l1 IHl]; simpl; intros N1 N2 Nf.
        * constructor; assumption.
        * inversion N1 as [|? ? Hx Nrest]; subst. constructor.
          -- intros Hin. apply in_app_or in Hin as [Hin | [<- | Hin]].
             ++ apply Hx, in_or_app. now left.
             ++ apply Nf. now left.
             ++ apply Hx, in_or_app. now right.
          -- apply IHl; [assumption | |]; intros Hin.
             ++ apply N2. now right.
             ++ apply Nf. now right. }
  intros Hd. now rewrite (F [] Hd).
Qed.

(** *** Opening the image *)

Lemma open_image_trace (path : string) (w : world) :
  trace (snd (open_image path w)) = (trace w ++ [open_event path])%list.
Proof.
  unfold open_image, open_event, is_url, fetch, bind, emit, lift, read_file.
  destruct (_ || _); simpl.
  - now destruct (urlopen path).
  - destruct (is_dir path); [reflexivity|].
    destruct (disk w !! path) as [data|]; simpl; [now destruct (Image_open data) | reflexivity].
Qed.

Lemma open_image_local (path : string) (w : world) :
  is_url path = false ->
  open_image path w
  = (decode_file path (disk w), World (disk w) (trace w ++ [ImageOpen path])).
Proof.
  unfold is_url, open_image, decode_file. intros ->.
  unfold bind, emit, lift, read_file. simpl.
  destruct (is_dir path); [reflexivity|].
  now destruct (disk w !! path).
Qed.

Lemma get_image_metadata_of (path : string) (w w1 : world) (img : Image) :
  open_image path w = (Ok img, w1) ->
  fst (get_image_metadata path w) = Ok (metadata_of img).
Proof.
  intros E. unfold metadata_of.
  destruct (im_getexif img) as [[table|]|e] eqn:Ex.
  - now rewrite (get_image_metadata_table _ _ _ _ _ E Ex).
  - now rewrite (get_image_metadata_no_table _ _ _ _ E Ex).
  - now rewrite (get_image_metadata_getexif_raises _ _ _ _ _ E Ex).
Qed.

(** X6. [generate_thumbnail] never raises and never changes a file. It
    returns a buffer exactly when the image opens, [img.thumbnail]
    succeeds and the JPEG encoding succeeds, and then it prints nothing;
    it returns [None] exactly when one of the three steps raises, and
    then it prints one line, "Error generating thumbnail: " followed by
    the text of that exception, as the last thing it does. *)
Theorem generate_thumbnail_outcome (path : string) (width height : Z) (w : world) :
  exists r w' evs,
    generate_thumbnail path width height w = (Ok r, w') /\
    disk w' = disk w /\
    trace w' = (trace w ++ evs)%list /\
    match r with
    | Some buf =>
        Forall not_print evs /\
        exists img thumb,
          fst (open_image path w) = Ok img /\
          Pil.Image_thumbnail img (width, height) = Ok thumb /\
          Image_save_jpeg thumb = Ok buf
    | None =>
        exists e evs0,
          evs = (evs0 ++ [Print ("Error generating thumbnail: " ++ exn_str e)])%list /\
          Forall not_print evs0 /\
          (fst (open_image path w) = Raise e \/
           exists img,
             fst (open_image path w) = Ok img /\
             (Pil.Image_thumbnail img (width, height) = Raise e \/
              exists thumb,
                Pil.Image_thumbnail img (width, height) = Ok thumb /\
                Image_save_jpeg thumb = Raise e))
    end.
Proof.
  assert (adds_only not_print (open_image path)) as A
    by (apply adds_only_open_image; intros ?; discriminate).
  destruct (A w) as (evs0 & Et & Hevs0).
  pose proof (keeps_disk_open_image path w) as K.
  assert (forall e w1, snd (open_image path w) = w1 ->
            exists w' evs,
              (Ok (@None bytes),
               World (disk w1)
                     (trace w1 ++ [Print ("Error generating thumbnail: " ++ exn_str e)]))
              = (Ok None, w') /\
              disk w' = disk w /\ trace w' = (trace w ++ evs)%list /\
              evs = (evs0 ++ [Print ("Error generating thumbnail: " ++ exn_str e)])%list)
    as Fail.
  { intros e w1 <-. eexists. eexists. split; [reflexivity|]. simpl.
    split; [assumption|]. split; [|reflexivity]. now rewrite Et, <- app_assoc. }
  destruct (open_image path w) as [[img|e] w1] eqn:Eo; simpl in *.
  2: { rewrite (generate_thumbnail_decode_fails _ _ _ _ _ _ Eo).
       destruct (Fail e w1 eq_refl) as (w' & evs & [= <-] & Hd & Htr & ->).
       exists None. eexists. eexists. split; [reflexivity|].
       split; [exact Hd|]. split; [exact Htr|]. exists e, evs0. auto. }
  destruct (Pil.Image_thumbnail img (width, height)) as [thumb|e] eqn:Eth.
  2: { rewrite (generate_thumbnail_resize_fails _ _ _ _ _ _ _ Eo Eth).
       destruct (Fail e w1 eq_refl) as (w' & evs & [= <-] & Hd & Htr & ->).
       exists None. eexists. eexists. split; [reflexivity|].
       split; [exact Hd|]. split; [exact Htr|]. exists e, evs0.
       split; [reflexivity|]. split; [assumption|]. right. exists img. auto. }
  destruct (Image_save_jpeg thumb) as [buf|e] eqn:Ej.
  2: { rewrite (generate_thumbnail_encode_fails _ _ _ _ _ _ _ _ Eo Eth Ej).
       destruct (Fail e w1 eq_refl) as (w' & evs & [= <-] & Hd & Htr & ->).
       exists None. eexists. eexists. split; [reflexivity|].
       split; [exact Hd|]. split; [exact Htr|]. exists e, evs0.
       split; [reflexivity|]. split; [assumption|]. right. exists img.
       split; [reflexivity|]. right. exists thumb. auto. }
  rewrite (generate_thumbnail_succeeds _ _ _ _ _ _ _ _ Eo Eth Ej).
  exists (Some buf), w1, evs0. repeat split; try assumption.
  exists img, thumb. auto.
Qed.

(** X7. No value of the mapping [get_image_metadata] returns is a bytes
    object: every bytes value of the tag table has become text, decoded
    when it decodes and in printed form when it does not. *)
Theorem metadata_has_no_bytes (path : string) (w : world) :
  exists metadata w',
    get_image_metadata path w = (Ok metadata, w') /\
    Forall (fun kv => forall b, snd kv <> VBytes b) metadata.
Proof.
  destruct (get_image_metadata_returns path w) as (metadata & w' & E).
  exists metadata, w'. split; [assumption|].
  assert (fst (get_image_metadata path w) = Ok metadata) as Ef by now rewrite E.
  destruct (run_cases (open_image path) w) as [(img & w1 & Eo) | (e & w1 & Eo)].
  - rewrite (get_image_metadata_of _ _ _ _ Eo) in Ef. injection Ef as <-.
    unfold metadata_of. destruct (im_getexif img) as [[table|]|e]; try constructor.
    apply (collect_metadata_values (fun v => forall b, v <> VBytes b)).
    intros value b. apply decode_value_not_bytes.
  - rewrite (get_image_metadata_open_fails _ _ _ _ Eo) in Ef. injection Ef as <-.
    constructor.
Qed.

(** X8. When the image opens and has a tag table whose translated keys
    are all different, [get_image_metadata] returns the table entry by
    entry and in its order: each identifier replaced by its name in
    [TAGS] (or kept when it has none), each bytes value replaced by its
    text; nothing is printed. *)
Theorem metadata_is_translated_table
  (path : string) (w w1 : world) (img : Image) (table : list (Z * exif_value)) :
  open_image path w = (Ok img, w1) ->
  im_getexif img = Ok (Some table) ->
  List.NoDup (map fst (translate table)) ->
  get_image_metadata path w = (Ok (translate table), w1).
Proof.
  intros Eo Ex Hd.
  rewrite (get_image_metadata_table _ _ _ _ _ Eo Ex).
  now rewrite collect_metadata_translate.
Qed.

(** X9. To get its image each helper makes exactly one call to the
    outside, and which one depends on the path alone: [urlopen(path)]
    when the path starts with "http://" or "https://", [Image.open(path)]
    on the local file otherwise, never both. Apart from that call a
    helper does nothing but print at most one line. *)
Theorem helpers_open_once (path : string) (width height : Z) (w : world) :
  (exists tail,
     trace (snd (generate_thumbnail path width height w))
     = (trace w ++ open_event path :: tail)%list /\
     (tail = [] \/ exists line, tail = [Print line])) /\
  (exists tail,
     trace (snd (get_image_metadata path w))
     = (trace w ++ open_event path :: tail)%list /\
     (tail = [] \/ exists line, tail = [Print line])).
Proof.
  pose proof (open_image_trace path w) as Et.
  split.
  - destruct (open_image path w) as [[img|e] w1] eqn:Eo; simpl in Et.
    2: { rewrite (generate_thumbnail_decode_fails _ _ _ _ _ _ Eo). simpl.
         rewrite Et, <- app_assoc. eauto. }
    destruct (Pil.Image_thumbnail img (width, height)) as [thumb|e] eqn:Eth.
    2: { rewrite (generate_thumbnail_resize_fails _ _ _ _ _ _ _ Eo Eth). simpl.
         rewrite Et, <- app_assoc. eauto. }
    destruct (Image_save_jpeg thumb) as [buf|e] eqn:Ej.
    2: { rewrite (generate_thumbnail_encode_fails _ _ _ _ _ _ _ _ Eo Eth Ej). simpl.
         rewrite Et, <- app_assoc. eauto. }
    rewrite (generate_thumbnail_succeeds _ _ _ _ _ _ _ _ Eo Eth Ej). simpl. eauto.
  - destruct (open_image path w) as [[img|e] w1] eqn:Eo; simpl in Et.
    2: { rewrite (get_image_metadata_open_fails _ _ _ _ Eo). simpl.
         rewrite Et, <- app_assoc. eauto. }
    destruct (im_getexif img) as [[table|]|e] eqn:Ex.
    + rewrite (get_image_metadata_table _ _ _ _ _ Eo Ex). simpl. eauto.
    + rewrite (get_image_metadata_no_table _ _ _ _ Eo Ex). simpl. eauto.
    + rewrite (get_image_metadata_getexif_raises _ _ _ _ _ Eo Ex). simpl.
      rewrite Et, <- app_assoc. eauto.
Qed.

End Helpers.

Section HelpersDemo.
Local Existing Instance Demo.platform.
Import Server Demo.

Lemma metadata_is_translated_table_witness :
  get_image_metadata "uploads/photo.jpg" w_photo
  = (Ok [(TagName "Make", VStr "TestCam"); (TagName "MakerNote", VStr "b'\xff'")],
     World (disk w_photo) [ImageOpen "uploads/photo.jpg"]).
Proof.
  assert (open_image "uploads/photo.jpg" w_photo
          = (Ok photo, World (disk w_photo) [ImageOpen "uploads/photo.jpg"])) as Eo
    by (vm_compute; reflexivity).
  assert (List.NoDup [TagName "Make"; TagName "MakerNote"]) as Hd
    by (apply List.NoDup_cons;
          [simpl; intros [E | []]; discriminate
          | apply List.NoDup_cons; [simpl; tauto | apply List.NoDup_nil]]).
  exact (metadata_is_translated_table "uploads/photo.jpg" w_photo _ photo _
           Eo eq_refl Hd).
Defined.

End HelpersDemo.

(** ** The network, the decoded file and the paths *)

Lemma adds_only_bind_post {A B} (P : event -> Prop) (Q : A -> Prop)
  (m : M A) (k : A -> M B) :
  (forall w a w1, m w = (Ok a, w1) -> Q a) ->
  adds_only P m ->
  (forall a, Q a -> adds_only P (k a)) ->
  adds_only P (bind m k).
Proof.
  intros HQ Hm Hk w. unfold bind.
  destruct (Hm w) as (evs & Et & Hevs). specialize (HQ w).
  destruct (m w) as [[a|e] w1]; simpl in *.
  - destruct (Hk a (HQ a w1 eq_refl) w1) as (evs' & Et' & Hevs').
    exists (evs ++ evs')%list. rewrite Et', Et, app_assoc.
    split; [reflexivity | now apply Forall_app].
  - now exists evs.
Qed.

Lemma forallb_lstrip (q p : ascii -> bool) (cs : list ascii) :
  forallb q cs = true -> forallb q (PyStr.lstrip p cs) = true.
Proof.
  induction cs as [|c cs IH]; simpl; [reflexivity|].
  intros E. destruct (p c); [|exact E].
  apply andb_true_iff in E as [_ E]. auto.
Qed.

Lemma forallb_rev (q : ascii -> bool) (cs : list ascii) :
  forallb q (rev cs) = forallb q cs.
Proof.
  induction cs as [|c cs IH]; simpl; [reflexivity|].
  rewrite forallb_app, IH. simpl. rewrite andb_true_r. apply andb_comm.
Qed.

Lemma forallb_filter_same (q : ascii -> bool) (cs : list ascii) :
  forallb q (List.filter q cs) = true.
Proof.
  induction cs as [|c cs IH]; simpl; [reflexivity|].
  destruct (q c) eqn:E; simpl; [now rewrite E|assumption].
Qed.

(** What [secure_filename] lets through has safe characters only. *)
Lemma secure_ascii_safe (cs : list ascii) :
  forallb Werkzeug.is_safe (Werkzeug.secure_ascii cs) = true.
Proof.
  unfold Werkzeug.secure_ascii, PyStr.strip, PyStr.rstrip.
  rewrite forallb_rev. apply forallb_lstrip. rewrite forallb_rev.
  apply forallb_lstrip, forallb_filter_same.
Qed.

Lemma join_uploads_safe (name : string) :
  forallb Werkzeug.is_safe (list_ascii_of_string name) = true ->
  OsPath.join UPLOAD_FOLDER name = "uploads/" ++ name.
Proof.
  destruct name as [|c name]; [reflexivity|].
  cbn [list_ascii_of_string forallb].
  intros E. apply andb_true_iff in E as [Ec _].
  unfold OsPath.join, PyStr.startswith.
  change (String.prefix "/" (String c name))
    with (if Ascii.ascii_dec "/" c then String.prefix "" name else false).
  destruct (Ascii.ascii_dec "/" c) as [<-|_]; [cbv in Ec; discriminate | reflexivity].
Qed.

(** No path made by [os.path.join] from the uploads folder looks like a
    URL. *)
Lemma is_url_join_uploads (name : string) :
  is_url (OsPath.join UPLOAD_FOLDER name) = false.
Proof.
  unfold OsPath.join, PyStr.startswith.
  destruct name as [|c name]; [reflexivity|].
  change (String.prefix "/" (String c name))
    with (if Ascii.ascii_dec "/" c then String.prefix "" name else false).
  destruct (Ascii.ascii_dec "/" c) as [<-|_]; [|reflexivity].
  now destruct name.
Qed.

Section Network.
Context `{Platform}.
Import Server.

Lemma is_url_target (req : request) : is_url (target_path req) = false.
Proof.
  unfold target_path.
  destruct (assoc "imageUrl" (form req)); [apply is_url_join_uploads|].
  destruct (assoc "image" (files req)); [apply is_url_join_uploads | reflexivity].
Qed.

Lemma in_uploads_secure (name : string) :
  in_uploads (OsPath.join UPLOAD_FOLDER (Werkzeug.secure_filename name)).
Proof.
  exists (Werkzeug.secure_filename name).
  assert (forallb Werkzeug.is_safe
            (list_ascii_of_string (Werkzeug.secure_filename name)) = true) as S.
  { unfold Werkzeug.secure_filename.
    rewrite list_ascii_of_string_of_list_ascii. apply secure_ascii_safe. }
  split; [now apply join_uploads_safe | exact S].
Qed.

Lemma thumbnail_respond (req : request) (w : world) (width height : Z) :
  int_field "width" req = Ok width -> int_field "height" req = Ok height ->
  thumbnail req w
  = bind (resolve_source req)
         (fun resolved =>
            match resolved with
            | inl early => ret early
            | inr src => respond src width height
            end) w.
Proof. intros Ew Eh. exact (thumbnail_fields_ok req w width height Ew Eh). Qed.

Lemma adds_only_open_event (P : event -> Prop) (path : string) :
  P (open_event path) -> adds_only P (open_image path).
Proof.
  intros HP w. exists [open_event path].
  split; [apply open_image_trace | auto].
Qed.

Lemma adds_only_respond (P : event -> Prop) (src : source) (width height : Z) :
  P (open_event (image_path src)) ->
  (forall p, temp_filepath src = Some p -> P (OsRemove p)) ->
  (forall line, P (Print line)) ->
  adds_only P (respond src width height).
Proof.
  intros Ho Hr Hp. unfold respond, generate_thumbnail, get_image_metadata, print.
  events; try (apply adds_only_open_event; assumption); try apply Hp.
  unfold cleanup, print. destruct (temp_filepath src) as [p|]; events; auto.
Qed.

Lemma image_save_trace (img : Image) (path : string) (w : world) :
  trace (snd (image_save img path w)) = (trace w ++ [ImageSave path])%list.
Proof.
  unfold image_save, bind, emit, write_file, path_exists, unlink, raise, ret. simpl.
  destruct (Image_save img path) as [data|e|e partial]; simpl.
  - now destruct (is_dir path).
  - reflexivity.
  - destruct (is_dir path); simpl; [reflexivity|].
    now destruct (negb _ && save_removes_created).
Qed.

Lemma download_trace (url : string) (w : world) :
  exists evs,
    trace (snd (download url w)) = (trace w ++ Urlopen url :: evs)%list /\
    (evs = [] \/ exists path, evs = [ImageSave path]).
Proof.
  rewrite download_steps.
  destruct (urlopen url) as [stream|e]; simpl; [|eauto].
  destruct (Image_open stream) as [img|e]; simpl; [|eauto].
  match goal with
  | |- context [image_save img ?p ?v] =>
      pose proof (image_save_trace img p v) as K;
      destruct (image_save img p v) as [[[]|e] w2]
  end; simpl in *; rewrite K, <- app_assoc; simpl; eauto.
Qed.

Lemma resolve_source_url_trace req url w :
  assoc "imageUrl" (form req) = Some url ->
  trace (snd (resolve_source req w)) = trace (snd (download url w)).
Proof.
  intros Eu.
  destruct (run_cases (download url) w) as [(path & w1 & D) | (e & w1 & D)].
  - now rewrite (resolve_source_download_ok _ _ _ _ _ Eu D), D.
  - now rewrite (resolve_source_download_fails _ _ _ _ _ Eu D), D.
Qed.

(** X10. An upload-sourced request never touches the network: when the
    form has no [imageUrl], no call of [urlopen] is made, whatever the
    uploaded file is called and however the request ends. *)
Theorem upload_never_fetches (req : request) (w : world) :
  assoc "imageUrl" (form req) = None ->
  exists evs,
    trace (snd (thumbnail req w)) = (trace w ++ evs)%list /\
    Forall not_urlopen evs.
Proof.
  intros Eu. revert w. change (adds_only not_urlopen (thumbnail req)).
  unfold thumbnail.
  apply adds_only_bind; [apply adds_only_lift | intros width].
  apply adds_only_bind; [apply adds_only_lift | intros height].
  apply (adds_only_bind_post _
           (fun r => match r with
                     | inl _ => True
                     | inr src => image_path src = target_path req
                     end)).
  - intros w [early|src] w1 Er; [exact I|].
    now apply (resolve_source_names_target req w src w1).
  - unfold resolve_source. rewrite Eu. unfold upload_save.
    events; intros ?; discriminate.
  - intros [early|src] Hsrc; [apply adds_only_ret|].
    apply (adds_only_respond not_urlopen src width height).
    + unfold open_event. rewrite Hsrc, is_url_target. intros ?; discriminate.
    + intros p _ ?; discriminate.
    + intros line ?; discriminate.
Qed.

(** The calls of a URL-sourced request start with the fetch of the
    [imageUrl], and no other fetch follows. *)
Lemma url_request_trace (req : request) (w : world) (url : string) (width height : Z) :
  int_field "width" req = Ok width ->
  int_field "height" req = Ok height ->
  assoc "imageUrl" (form req) = Some url ->
  exists evs,
    trace (snd (thumbnail req w)) = (trace w ++ Urlopen url :: evs)%list /\
    Forall not_urlopen evs.
Proof.
  intros Ew Eh Eu. rewrite (thumbnail_respond req w width height Ew Eh).
  destruct (download_trace url w) as (evs1 & Et1 & Hevs1).
  rewrite <- (resolve_source_url_trace req url w Eu) in Et1.
  assert (Forall not_urlopen evs1) as N1.
  { destruct Hevs1 as [-> | (path & ->)]; repeat constructor; intros ?; discriminate. }
  unfold bind.
  destruct (resolve_source req w) as [[[early|src]|e] w1] eqn:Er; simpl in *.
  - exists evs1. auto.
  - destruct (resolve_source_names_target req w src w1 Er) as (Hp & _).
    destruct (adds_only_respond not_urlopen src width height) with (w := w1)
      as (evs2 & Et2 & N2).
    + unfold open_event. rewrite Hp, is_url_target. intros ?; discriminate.
    + intros p _ ?; discriminate.
    + intros line ?; discriminate.
    + exists (evs1 ++ evs2)%list. rewrite Et2, Et1, <- app_assoc. simpl.
      split; [reflexivity | now apply Forall_app].
  - exists evs1. auto.
Qed.

(** X11. A URL-sourced request whose width and height are read fetches
    the [imageUrl] first and exactly once: the first thing it does is
    [urlopen(image_url)], and no other call of [urlopen] follows; the
    thumbnail and the metadata are made from the saved file. *)
Theorem url_fetched_once (req : request) (w : world) (url : string) (width height : Z) :
  int_field "width" req = Ok width ->
  int_field "height" req = Ok height ->
  assoc "imageUrl" (form req) = Some url ->
  exists evs,
    trace (snd (thumbnail req w)) = (trace w ++ Urlopen url :: evs)%list /\
    Forall not_urlopen evs.
Proof. apply url_request_trace. Qed.

(** X12. In a 200 response the thumbnail and the metadata come from one
    and the same decoded file: the file at the path of the request is
    decoded to an image, [thumbnailUrl] carries the JPEG encoding of that
    image after [img.thumbnail], and [metadata] is the mapping made from
    the tag table of that image (empty when it has none or when reading
    it raises). Both helpers decode the file anew, and nothing changes
    it in between. *)
Theorem thumbnail_and_metadata_of_one_file
  (req : request) (w w' : world) (resp : response) :
  thumbnail req w = (Ok resp, w') ->
  status resp = 200 ->
  exists width height src w1 img thumb buf,
    int_field "width" req = Ok width /\
    int_field "height" req = Ok height /\
    resolve_source req w = (Ok (inr src), w1) /\
    image_path src = target_path req /\
    decode_file (target_path req) (disk w1) = Ok img /\
    Pil.Image_thumbnail img (width, height) = Ok thumb /\
    Image_save_jpeg thumb = Ok buf /\
    json resp
    = ThumbnailBody ("data:image/jpeg;base64," ++ Base64.b64encode buf) (metadata_of img).
Proof.
  intros E Hs.
  destruct (thumbnail_200_inv req w w' resp E Hs)
    as (width & height & src & w1 & buf & w2 & md & w3 & Ew & Eh & Er & G & Em & _ & ->).
  destruct (resolve_source_names_target req w src w1 Er) as (Hp & _).
  rewrite Hp in G, Em.
  destruct (generate_thumbnail_some_inv _ _ _ _ _ _ G) as (img & thumb & Eo & Et & Ej).
  rewrite (open_image_local _ _ (is_url_target req)) in Eo.
  injection Eo as Ed <-.
  assert (fst (get_image_metadata (target_path req)
                 (World (disk w1) (trace w1 ++ [ImageOpen (target_path req)])))
          = Ok (metadata_of img)) as Em'.
  { eapply get_image_metadata_of.
    rewrite (open_image_local _ _ (is_url_target req)). simpl. now rewrite Ed. }
  rewrite Em in Em'. injection Em' as ->.
  exists width, height, src, w1, img, thumb, buf. auto 10.
Qed.

(** X13. Every file the handler opens, writes or removes is right inside
    the uploads directory: each path given to [Image.open], [img.save],
    [image_file.save] or [os.remove] is "uploads/" followed by a name
    made only of letters, digits, underscores, dots and dashes (what
    [secure_filename] lets through), so no slash and no client-chosen
    directory can come in, whatever the URL or the uploaded file name
    is. *)
Theorem paths_stay_in_uploads (req : request) (w : world) :
  exists evs,
    trace (snd (thumbnail req w)) = (trace w ++ evs)%list /\
    Forall stays_in_uploads evs.
Proof.
  revert w. change (adds_only stays_in_uploads (thumbnail req)).
  unfold thumbnail.
  apply adds_only_bind; [apply adds_only_lift | intros width].
  apply adds_only_bind; [apply adds_only_lift | intros height].
  apply (adds_only_bind_post _
           (fun r => match r with
                     | inl _ => True
                     | inr src =>
                         in_uploads (image_path src) /\
                         forall p, temp_filepath src = Some p -> in_uploads p
                     end)).
  - intros w [early|src] w1 Er; [exact I|].
    destruct (resolve_source_names_target req w src w1 Er) as (Hp & Ht).
    assert (in_uploads (target_path req)) as U.
    { unfold target_path.
      destruct (assoc "imageUrl" (form req)) as [url|] eqn:Eu;
        [apply in_uploads_secure|].
      destruct (assoc "image" (files req)) as [f|] eqn:Ef; [apply in_uploads_secure|].
      unfold resolve_source in Er. rewrite Eu, Ef in Er. discriminate. }
    split; [now rewrite Hp|].
    intros p Ep. destruct Ht as [Ht | Ht]; rewrite Ht in Ep; [discriminate|].
    now injection Ep as <-.
  - unfold resolve_source, download, fetch, image_save, upload_save.
    events; try exact I; apply in_uploads_secure.
  - intros [early|src] Hsrc; [apply adds_only_ret|].
    destruct Hsrc as (Hp & Ht).
    apply (adds_only_respond stays_in_uploads src width height).
    + unfold open_event. destruct (is_url (image_path src)); [exact I | exact Hp].
    + exact Ht.
    + intros line. exact I.
Qed.

End Network.

Section NetworkDemo.
Local Existing Instance Demo.platform.
Import Server Demo DemoRequests.

Lemma upload_never_fetches_witness :
  exists evs,
    trace (snd (thumbnail photo_upload w0)) = (trace w0 ++ evs)%list /\
    Forall not_urlopen evs.
Proof. apply (upload_never_fetches photo_upload w0). reflexivity. Defined.

Lemma url_fetched_once_witness :
  exists evs,
    trace (snd (thumbnail photo_by_url w0))
    = (trace w0 ++ Urlopen "http://example.com/pics/photo.jpg" :: evs)%list /\
    Forall not_urlopen evs.
Proof.
  apply (url_fetched_once photo_by_url w0 "http://example.com/pics/photo.jpg" 100 100);
    reflexivity.
Defined.

Lemma thumbnail_and_metadata_of_one_file_witness :
  exists width height src w1 img thumb buf,
    int_field "width" photo_upload = Ok width /\
    int_field "height" photo_upload = Ok height /\
    resolve_source photo_upload w0 = (Ok (inr src), w1) /\
    image_path src = target_path photo_upload /\
    decode_file (target_path photo_upload) (disk w1) = Ok img /\
    Pil.Image_thumbnail img (width, height) = Ok thumb /\
    Image_save_jpeg thumb = Ok buf /\
    json photo_response
    = ThumbnailBody ("data:image/jpeg;base64," ++ Base64.b64encode buf) (metadata_of img).
Proof.
  apply (thumbnail_and_metadata_of_one_file photo_upload w0
           (snd (thumbnail photo_upload w0)) photo_response).
  - vm_compute. reflexivity.
  - reflexivity.
Defined.

(** A name that tries to leave the directory is saved inside it. *)
Example traversal_upload_stays_inside :
  trace (snd (thumbnail (upload_request "../../etc/passwd.png" photo_data) w0))
  = [UploadSave "uploads/etc_passwd.png"; ImageOpen "uploads/etc_passwd.png";
     ImageOpen "uploads/etc_passwd.png"].
Proof. vm_compute. reflexivity. Qed.

End NetworkDemo.

(** ** One request after another *)

Section Sequences.
Context `{Platform}.
Import Server.

(** What [generate_thumbnail] returns for a local path is decided by
    what the file at the path decodes to. *)
Lemma generate_thumbnail_agree path width height w1 w2 :
  is_url path = false ->
  decode_file path (disk w1) = decode_file path (disk w2) ->
  fst (generate_thumbnail path width height w1)
  = fst (generate_thumbnail path width height w2).
Proof.
  intros Hu Ed.
  pose proof (open_image_local path w1 Hu) as E1.
  pose proof (open_image_local path w2 Hu) as E2.
  rewrite <- Ed in E2.
  destruct (decode_file path (disk w1)) as [img|e].
  2: { now rewrite (generate_thumbnail_decode_fails _ _ _ _ _ _ E1),
                   (generate_thumbnail_decode_fails _ _ _ _ _ _ E2). }
  destruct (Pil.Image_thumbnail img (width, height)) as [thumb|e] eqn:Et.
  2: { now rewrite (generate_thumbnail_resize_fails _ _ _ _ _ _ _ E1 Et),
                   (generate_thumbnail_resize_fails _ _ _ _ _ _ _ E2 Et). }
  destruct (Image_save_jpeg thumb) as [buf|e] eqn:Ej.
  2: { now rewrite (generate_thumbnail_encode_fails _ _ _ _ _ _ _ _ E1 Et Ej),
                   (generate_thumbnail_encode_fails _ _ _ _ _ _ _ _ E2 Et Ej). }
  now rewrite (generate_thumbnail_succeeds _ _ _ _ _ _ _ _ E1 Et Ej),
              (generate_thumbnail_succeeds _ _ _ _ _ _ _ _ E2 Et Ej).
Qed.

Lemma get_image_metadata_agree path w1 w2 :
  is_url path = false ->
  decode_file path (disk w1) = decode_file path (disk w2) ->
  fst (get_image_metadata path w1) = fst (get_image_metadata path w2).
Proof.
  intros Hu Ed.
  pose proof (open_image_local path w1 Hu) as E1.
  pose proof (open_image_local path w2 Hu) as E2.
  rewrite <- Ed in E2.
  destruct (decode_file path (disk w1)) as [img|e].
  - now rewrite (get_image_metadata_of _ _ _ _ E1), (get_image_metadata_of _ _ _ _ E2).
  - now rewrite (get_image_metadata_open_fails _ _ _ _ E1),
                (get_image_metadata_open_fails _ _ _ _ E2).
Qed.

Lemma respond_agree src width height w1 w2 :
  is_url (image_path src) = false ->
  decode_file (image_path src) (disk w1) = decode_file (image_path src) (disk w2) ->
  fst (respond src width height w1) = fst (respond src width height w2).
Proof.
  intros Hu Ed. unfold respond.
  pose proof (generate_thumbnail_agree _ width height w1 w2 Hu Ed) as Eg.
  destruct (generate_thumbnail_returns (image_path src) width height w1) as (t1 & v1 & G1).
  destruct (generate_thumbnail_returns (image_path src) width height w2) as (t2 & v2 & G2).
  rewrite G1, G2 in Eg. simpl in Eg. injection Eg as <-.
  rewrite (bind_ok _ _ _ _ _ G1), (bind_ok _ _ _ _ _ G2).
  destruct t1 as [buf|]; [|reflexivity].
  pose proof (keeps_disk_generate_thumbnail (image_path src) width height w1) as K1.
  pose proof (keeps_disk_generate_thumbnail (image_path src) width height w2) as K2.
  rewrite G1 in K1. rewrite G2 in K2. simpl in K1, K2.
  assert (decode_file (image_path src) (disk v1) = decode_file (image_path src) (disk v2))
    as Ed' by now rewrite K1, K2.
  pose proof (get_image_metadata_agree _ v1 v2 Hu Ed') as Em.
  destruct (get_image_metadata_returns (image_path src) v1) as (m1 & u1 & M1).
  destruct (get_image_metadata_returns (image_path src) v2) as (m2 & u2 & M2).
  rewrite M1, M2 in Em. simpl in Em. injection Em as <-.
  rewrite (bind_ok _ _ _ _ _ M1), (bind_ok _ _ _ _ _ M2).
  destruct (cleanup_returns src u1) as (x1 & C1).
  destruct (cleanup_returns src u2) as (x2 & C2).
  now rewrite (bind_ok _ _ _ _ _ C1), (bind_ok _ _ _ _ _ C2).
Qed.

(** A save ends the same way in every world, and the file it leaves
    when it returns decodes the same. *)
Lemma image_save_agree img path w1 w2 :
  fst (image_save img path w1) = fst (image_save img path w2) /\
  (fst (image_save img path w1) = Ok tt ->
   decode_file path (disk (snd (image_save img path w1)))
   = decode_file path (disk (snd (image_save img path w2)))).
Proof.
  unfold image_save, bind, emit, write_file, path_exists, unlink, raise, ret. simpl.
  destruct (Image_save img path) as [data|e|e partial]; simpl.
  - destruct (is_dir path) eqn:D; simpl; [split; [reflexivity | discriminate]|].
    split; [reflexivity|]. intros _. unfold decode_file.
    now rewrite D, !lookup_insert_eq.
  - split; [reflexivity | discriminate].
  - destruct (is_dir path) eqn:D; simpl; [split; [reflexivity | discriminate]|].
    do 2 destruct (negb _ && save_removes_created); simpl;
      (split; [reflexivity | discriminate]).
Qed.

Lemma download_agree url w1 w2 :
  fst (download url w1) = fst (download url w2) /\
  (forall path, fst (download url w1) = Ok path ->
     decode_file path (disk (snd (download url w1)))
     = decode_file path (disk (snd (download url w2)))).
Proof.
  rewrite !download_steps.
  destruct (urlopen url) as [stream|e]; simpl; [|split; [reflexivity | discriminate]].
  destruct (Image_open stream) as [img|e]; simpl; [|split; [reflexivity | discriminate]].
  match goal with
  | |- context [image_save img ?p ?v1] =>
      match goal with
      | |- context [image_save img p ?v2] =>
          lazymatch v1 with
          | v2 => fail
          | _ => destruct (image_save_agree img p v1 v2) as (Ef & Ed);
                 destruct (image_save img p v1) as [[[]|e1] u1];
                 destruct (image_save img p v2) as [[[]|e2] u2]
          end
      end
  end; simpl in *; try discriminate.
  - split; [reflexivity|]. intros path [= <-].
    first [now apply Ed | symmetry; now apply Ed].
  - split; [congruence | discriminate].
Qed.

(** The branch statement ends the same way in every world, and the file
    it leaves at the target path decodes the same. *)
Lemma resolve_source_agree req w1 w2 :
  fst (resolve_source req w1) = fst (resolve_source req w2) /\
  (forall src, fst (resolve_source req w1) = Ok (inr src) ->
     decode_file (target_path req) (disk (snd (resolve_source req w1)))
     = decode_file (target_path req) (disk (snd (resolve_source req w2)))).
Proof.
  unfold target_path.
  destruct (assoc "imageUrl" (form req)) as [url|] eqn:Eu.
  - destruct (download_agree url w1 w2) as (Ef & Ed).
    destruct (run_cases (download url) w1) as [(p1 & v1 & D1) | (e1 & v1 & D1)];
      destruct (run_cases (download url) w2) as [(p2 & v2 & D2) | (e2 & v2 & D2)];
      rewrite D1, D2 in Ef; simpl in Ef; try discriminate.
    + injection Ef as <-.
      rewrite (resolve_source_download_ok _ _ _ _ _ Eu D1),
              (resolve_source_download_ok _ _ _ _ _ Eu D2). simpl.
      split; [reflexivity|]. intros _ _.
      destruct (download_ok_inv _ _ _ _ D1) as (<- & _).
      specialize (Ed p1). rewrite D1, D2 in Ed. now apply Ed.
    + injection Ef as <-.
      rewrite (resolve_source_download_fails _ _ _ _ _ Eu D1),
              (resolve_source_download_fails _ _ _ _ _ Eu D2). simpl.
      split; [reflexivity | discriminate].
  - unfold resolve_source. rewrite Eu.
    destruct (assoc "image" (files req)) as [f|];
      [|split; [reflexivity | discriminate]].
    destruct (String.eqb (filename f) ""); [split; [reflexivity | discriminate]|].
    unfold bind, upload_save, emit, write_file, ret. simpl.
    destruct (is_dir _) eqn:D; simpl; [split; [reflexivity | discriminate]|].
    split; [reflexivity|]. intros _ _. unfold decode_file.
    now rewrite D, !lookup_insert_eq.
Qed.

(** X14. The answer to a request does not depend on the world it
    arrives in: whatever files lie in the uploads directory and whatever
    was done before, the same request gets the same response, or raises
    the same exception. The handler reads no file but the one it has
    just written. *)
Theorem response_ignores_world (req : request) (w1 w2 : world) :
  fst (thumbnail req w1) = fst (thumbnail req w2).
Proof.
  destruct (int_field "width" req) as [width|e] eqn:Ew.
  2: { now rewrite !(thumbnail_width_raises _ _ _ Ew). }
  destruct (int_field "height" req) as [height|e] eqn:Eh.
  2: { now rewrite !(thumbnail_height_raises _ _ _ _ Ew Eh). }
  rewrite !(thumbnail_respond req _ width height Ew Eh).
  destruct (resolve_source_agree req w1 w2) as (Ef & Ed).
  unfold bind.
  destruct (resolve_source req w1) as [[[early|src]|e] v1] eqn:E1;
    destruct (resolve_source req w2) as [[r2|e2] v2] eqn:E2;
    simpl in Ef; try discriminate; injection Ef as <-; try reflexivity.
  destruct (resolve_source_names_target req w1 src v1 E1) as (Hp & _).
  apply respond_agree.
  - rewrite Hp. apply is_url_target.
  - rewrite Hp. now apply (Ed src).
Qed.

Lemma serve_touches_only (reqs : list request) (w : world) (p : string) :
  Forall (fun req => target_path req <> p) reqs ->
  disk (serve reqs w) !! p = disk w !! p.
Proof.
  intros Hall. revert w.
  induction Hall as [|req reqs Hreq Hreqs IH]; intros w; simpl; [reflexivity|].
  rewrite IH. apply touches_only_thumbnail. congruence.
Qed.

(** X15. An upload persists: once an upload-sourced request has been
    answered with something other than 400, the uploaded bytes are still
    at its path after any series of later requests, as long as none of
    them has the same target path (a URL or an upload with the same
    sanitized name). *)
Theorem upload_persists
  (req : request) (w w1 : world) (resp : response) (f : FileStorage)
  (later : list request) :
  assoc "imageUrl" (form req) = None ->
  assoc "image" (files req) = Some f ->
  thumbnail req w = (Ok resp, w1) ->
  status resp <> 400 ->
  Forall (fun r => target_path r <> target_path req) later ->
  disk (serve later w1) !! target_path req = Some (stream f).
Proof.
  intros Eu Ef E Hs Hlater.
  rewrite (serve_touches_only later w1 (target_path req) Hlater).
  unfold target_path. rewrite Eu, Ef.
  now apply (uploaded_file_remains req w w1 resp f).
Qed.

(** When no thumbnail is returned, one of the three steps raised, and
    the line printed carries the text of that exception. *)
Lemma generate_thumbnail_none_inv path width height w w' :
  generate_thumbnail path width height w = (Ok None, w') ->
  exists e w1,
    (open_image path w = (Raise e, w1) \/
     exists img,
       open_image path w = (Ok img, w1) /\
       (Pil.Image_thumbnail img (width, height) = Raise e \/
        exists thumb,
          Pil.Image_thumbnail img (width, height) = Ok thumb /\
          Image_save_jpeg thumb = Raise e)) /\
    w' = World (disk w1)
               (trace w1 ++ [Print ("Error generating thumbnail: " ++ exn_str e)]).
Proof.
  intros G.
  destruct (run_cases (open_image path) w) as [(img & w1 & Eo) | (e & w1 & Eo)].
  2: { rewrite (generate_thumbnail_decode_fails _ _ _ _ _ _ Eo) in G.
       injection G as <-. exists e, w1. auto. }
  destruct (Pil.Image_thumbnail img (width, height)) as [thumb|e] eqn:Et.
  2: { rewrite (generate_thumbnail_resize_fails _ _ _ _ _ _ _ Eo Et) in G.
       injection G as <-. exists e, w1. split; [|reflexivity].
       right. exists img. auto. }
  destruct (Image_save_jpeg thumb) as [buf|e] eqn:Ej.
  2: { rewrite (generate_thumbnail_encode_fails _ _ _ _ _ _ _ _ Eo Et Ej) in G.
       injection G as <-. exists e, w1. split; [|reflexivity].
       right. exists img. split; [assumption|]. right. exists thumb. auto. }
  rewrite (generate_thumbnail_succeeds _ _ _ _ _ _ _ _ Eo Et Ej) in G. discriminate.
Qed.

(** X16. The cause of a 500 is logged and not sent. Whenever the
    response is 500, the source of the request was resolved to the
    target path, and one step of making the thumbnail of that file
    raised an exception [e]: opening it, [img.thumbnail], or the JPEG
    encoding. The last thing the handler did was to print
    "Error generating thumbnail: " followed by the text of that very
    exception, right after the failing step, while the body of the
    response is the fixed message "Failed to generate thumbnail"
    whatever the exception was. *)
Theorem internal_error_is_logged (req : request) (w w' : world) (resp : response) :
  thumbnail req w = (Ok resp, w') ->
  status resp = 500 ->
  json resp = ErrorBody "Failed to generate thumbnail" /\
  exists width height src w1 e w2,
    int_field "width" req = Ok width /\
    int_field "height" req = Ok height /\
    resolve_source req w = (Ok (inr src), w1) /\
    image_path src = target_path req /\
    (open_image (image_path src) w1 = (Raise e, w2) \/
     exists img,
       open_image (image_path src) w1 = (Ok img, w2) /\
       (Pil.Image_thumbnail img (width, height) = Raise e \/
        exists thumb,
          Pil.Image_thumbnail img (width, height) = Ok thumb /\
          Image_save_jpeg thumb = Raise e)) /\
    w' = World (disk w2)
               (trace w2 ++ [Print ("Error generating thumbnail: " ++ exn_str e)]) /\
    trace w' = (trace w2 ++ [Print ("Error generating thumbnail: " ++ exn_str e)])%list.
Proof.
  intros E Hs.
  destruct (thumbnail_ok_inv req w w' resp E)
    as (width & height & Ew & Eh & [Er | [(src & w1 & Er & G & ->)
                                       | (src & w1 & buf & w2 & md & w3 & _ & _ & _ & _ & ->)]]).
  - apply resolve_source_early_inv in Er as [S _]. congruence.
  - split; [reflexivity|].
    destruct (generate_thumbnail_none_inv _ _ _ _ _ G) as (e & w2 & Hstep & ->).
    destruct (resolve_source_names_target req w src w1 Er) as (Hp & _).
    exists width, height, src, w1, e, w2. repeat split; assumption.
  - discriminate.
Qed.

End Sequences.

Section SequencesDemo.
Local Existing Instance Demo.platform.
Import Server Demo DemoRequests.

Lemma upload_persists_witness :
  disk (serve [logo_by_url; text_upload; empty_request]
              (snd (thumbnail photo_upload w0)))
    !! target_path photo_upload
  = Some photo_data.
Proof.
  apply (upload_persists photo_upload w0 (snd (thumbnail photo_upload w0))
           photo_response {| filename := "my photo.jpg"; stream := photo_data |}
           [logo_by_url; text_upload; empty_request]).
  - reflexivity.
  - reflexivity.
  - vm_compute. reflexivity.
  - simpl. discriminate.
  - repeat constructor; vm_compute; discriminate.
Defined.

Lemma internal_error_is_logged_witness :
  Image_save_jpeg logo = Raise (Exn "OSError" "cannot write mode RGBA as JPEG") /\
  trace (snd (thumbnail logo_by_url w0))
  = [Urlopen "http://example.com/logo.png"; ImageSave "uploads/logo.png";
     ImageOpen "uploads/logo.png";
     Print "Error generating thumbnail: cannot write mode RGBA as JPEG"] /\
  exists width height src w1 e' w2,
    int_field "width" logo_by_url = Ok width /\
    int_field "height" logo_by_url = Ok height /\
    resolve_source logo_by_url w0 = (Ok (inr src), w1) /\
    image_path src = target_path logo_by_url /\
    (open_image (image_path src) w1 = (Raise e', w2) \/
     exists img,
       open_image (image_path src) w1 = (Ok img, w2) /\
       (Pil.Image_thumbnail img (width, height) = Raise e' \/
        exists thumb,
          Pil.Image_thumbnail img (width, height) = Ok thumb /\
          Image_save_jpeg thumb = Raise e')) /\
    snd (thumbnail logo_by_url w0)
    = World (disk w2)
            (trace w2 ++ [Print ("Error generating thumbnail: " ++ exn_str e')]) /\
    trace (snd (thumbnail logo_by_url w0))
    = (trace w2 ++ [Print ("Error generating thumbnail: " ++ exn_str e')])%list.
Proof.
  split; [reflexivity|]. split; [vm_compute; reflexivity|].
  apply (internal_error_is_logged logo_by_url w0 (snd (thumbnail logo_by_url w0))
           (Response 500 (ErrorBody "Failed to generate thumbnail"))).
  - vm_compute. reflexivity.
  - reflexivity.
Defined.

End SequencesDemo.


(** ** A request with both sources *)

Section Precedence.
Context `{Platform}.
Import Server.

Lemma adds_only_thumbnail_url (P : event -> Prop) (req : request) (url : string) :
  assoc "imageUrl" (form req) = Some url ->
  (forall ev, not_upload_save ev -> P ev) ->
  adds_only P (thumbnail req).
Proof.
  intros E HP. unfold thumbnail. rewrite (resolve_source_url _ _ E).
  assert (forall ev, (forall p, ev <> UploadSave p) -> P ev) as HP' by exact HP.
  events;
    try first [ apply adds_only_open_image | apply adds_only_cleanup ];
    intros; apply HP'; intros ?; discriminate.
Qed.

(** With an [imageUrl] in the form, the branch statement is the
    download and nothing else. *)
Lemma resolve_source_is_download (req : request) (w : world) (url : string) :
  assoc "imageUrl" (form req) = Some url ->
  resolve_source req w
  = match download url w with
    | (Ok path, w1) =>
        (Ok (inr {| image_path := path; temp_filepath := Some path |}), w1)
    | (Raise e, w1) =>
        (Ok (inl (Response 400
                    (ErrorBody ("Error downloading image from URL: " ++ exn_str e)))),
         w1)
    end.
Proof.
  intros Eu.
  destruct (run_cases (download url) w) as [(path & w1 & D) | (e & w1 & D)]; rewrite D.
  - now apply (resolve_source_download_ok req url).
  - now apply (resolve_source_download_fails req url).
Qed.

(** A download whose three steps succeed leaves the saved image at the
    path made from the base name of the URL. *)
Lemma download_saved (url : string) (w : world) (image_stream : bytes) (img : Image)
  (data : bytes) :
  let path :=
    OsPath.join UPLOAD_FOLDER (Werkzeug.secure_filename (OsPath.basename url)) in
  urlopen url = Ok image_stream ->
  Image_open image_stream = Ok img ->
  Image_save img path = Saved data ->
  is_dir path = false ->
  download url w
  = (Ok path,
     World (<[path := data]> (disk w)) (trace w ++ [Urlopen url; ImageSave path])).
Proof.
  intros path Eu Eo Es Hd. rewrite download_steps, Eu, Eo. fold path.
  unfold image_save, bind, emit, write_file, ret. simpl.
  rewrite Es, Hd. simpl. now rewrite <- app_assoc.
Qed.

(** C8. The uploaded [image] is looked at only when the form has no
    [imageUrl], and a request that carries both is processed from the
    URL. It is answered exactly as the same request without any uploaded
    file (same response or exception, same disk, same calls), and
    [image_file.save] is never called, so the uploaded file is not
    written to the uploads directory. Its source is the download of the
    URL: the branch statement gives the path the download saved to, or
    the 400 response with the text of the exception the download raised.
    When the URL is fetched, decoded and saved, the source is the file
    with the saved image at the path made from the base name of the URL.
    When the width and the height are read, the whole answer is the one
    made from the downloaded file, the first call of the request is
    [urlopen(image_url)], and what follows has no other fetch and no
    save of an uploaded file. *)
Theorem url_takes_precedence (req : request) (w : world) (url : string) :
  assoc "imageUrl" (form req) = Some url ->
  thumbnail req w = thumbnail (without_files req) w /\
  (exists evs, trace (snd (thumbnail req w)) = (trace w ++ evs)%list /\
               Forall not_upload_save evs) /\
  resolve_source req w
  = match download url w with
    | (Ok path, w1) =>
        (Ok (inr {| image_path := path; temp_filepath := Some path |}), w1)
    | (Raise e, w1) =>
        (Ok (inl (Response 400
                    (ErrorBody ("Error downloading image from URL: " ++ exn_str e)))),
         w1)
    end /\
  (forall image_stream img data,
     urlopen url = Ok image_stream ->
     Image_open image_stream = Ok img ->
     Image_save img (target_path req) = Saved data ->
     is_dir (target_path req) = false ->
     target_path req
     = OsPath.join UPLOAD_FOLDER (Werkzeug.secure_filename (OsPath.basename url)) /\
     resolve_source req w
     = (Ok (inr {| image_path := target_path req;
                   temp_filepath := Some (target_path req) |}),
        World (<[target_path req := data]> (disk w))
              (trace w ++ [Urlopen url; ImageSave (target_path req)]))) /\
  (forall width height,
     int_field "width" req = Ok width ->
     int_field "height" req = Ok height ->
     thumbnail req w
     = match download url w with
       | (Ok path, w1) =>
           respond {| image_path := path; temp_filepath := Some path |} width height w1
       | (Raise e, w1) =>
           (Ok (Response 400
                  (ErrorBody ("Error downloading image from URL: " ++ exn_str e))),
            w1)
       end /\
     exists evs,
       trace (snd (thumbnail req w)) = (trace w ++ Urlopen url :: evs)%list /\
       Forall not_urlopen evs /\
       Forall not_upload_save evs).
Proof.
  intros E.
  pose proof (adds_only_thumbnail_url not_upload_save req url E (fun ev Hev => Hev) w)
    as Hsave.
  split; [|split; [exact Hsave|split; [now apply resolve_source_is_download|split]]].
  - unfold thumbnail.
    rewrite (resolve_source_url req url E), (resolve_source_url (without_files req) url E).
    reflexivity.
  - intros image_stream img data Eu Eo Es Hd.
    assert (target_path req
            = OsPath.join UPLOAD_FOLDER (Werkzeug.secure_filename (OsPath.basename url)))
      as Et by (unfold target_path; now rewrite E).
    split; [exact Et|].
    rewrite (resolve_source_is_download req w url E).
    rewrite Et in Es, Hd |- *.
    now rewrite (download_saved url w image_stream img data Eu Eo Es Hd).
  - intros width height Ew Eh. split.
    + rewrite (thumbnail_respond req w width height Ew Eh). unfold bind.
      rewrite (resolve_source_is_download req w url E).
      now destruct (download url w) as [[path|e] w1].
    + destruct (url_request_trace req w url width height Ew Eh E) as (evs & Et & Hfetch).
      destruct Hsave as (evs' & Et' & Hsave).
      exists evs. split; [exact Et|]. split; [exact Hfetch|].
      rewrite Et in Et'. apply app_inv_head in Et'. subst evs'.
      now apply Forall_inv_tail in Hsave.
Qed.

End Precedence.

Section PrecedenceDemo.
Local Existing Instance Demo.platform.
Import Server Demo DemoRequests.

Lemma url_takes_precedence_witness :
  assoc "image" (files both_sources)
  = Some {| filename := "other.png"; stream := logo_data |} /\
  thumbnail both_sources w0 = thumbnail (without_files both_sources) w0 /\
  resolve_source both_sources w0
  = (Ok (inr {| image_path := "uploads/photo.jpg";
                temp_filepath := Some "uploads/photo.jpg" |}),
     World (<["uploads/photo.jpg" := photo_data]> ∅)
           [Urlopen "http://example.com/pics/photo.jpg"; ImageSave "uploads/photo.jpg"]) /\
  thumbnail both_sources w0
  = (Ok photo_response,
     World ∅ [Urlopen "http://example.com/pics/photo.jpg";
              ImageSave "uploads/photo.jpg"; ImageOpen "uploads/photo.jpg";
              ImageOpen "uploads/photo.jpg"; OsRemove "uploads/photo.jpg"]) /\
  exists evs,
    trace (snd (thumbnail both_sources w0))
    = Urlopen "http://example.com/pics/photo.jpg" :: evs /\
    Forall not_urlopen evs /\
    Forall not_upload_save evs.
Proof.
  destruct (url_takes_precedence both_sources w0 "http://example.com/pics/photo.jpg")
    as (Hsame & _ & _ & Hsaved & Hanswer); [reflexivity|].
  destruct (Hsaved photo_data photo photo_data) as (_ & Hsource);
    [reflexivity | reflexivity | reflexivity | reflexivity |].
  destruct (Hanswer 100 100) as (Hresp & Hcalls); [reflexivity | reflexivity |].
  split; [reflexivity|]. split; [exact Hsame|]. split; [exact Hsource|].
  split; [|exact Hcalls].
  rewrite Hresp. vm_compute. reflexivity.
Defined.

End PrecedenceDemo.
